(** * Nominatim: postcode reconciliation and version strings

    A shallow embedding of [nominatim_db/tools/postcodes.py] and
    [nominatim_db/version.py], with the properties of the postcode
    collector, its three-way diff, the external-file merge, the
    reconciliation driver and the version string round trip.

    Conventions of the embedding.
    - Python [str] is [string]; a [dict] is a [gmap]; a [set] is a [gset].
    - Coordinates are Python floats in the source.  The model reads them as
      exact rationals [Q]: rounding is outside the model, and the
      non-finite values only occur as results of [float()] on a string,
      where [isfinite] tests them.
    - The database table [location_postcode] is the list of its rows;
      a cursor yields the selected rows in table order.
    - [LOG] is the list of the records written so far, latest last. *)

From Stdlib Require Import ZArith QArith Lqa Lia Ascii String List.
From Stdlib Require Import DecimalString DecimalPos.
From stdpp Require Import base option gmap strings list fin_maps.

Open Scope string_scope.
Open Scope list_scope.
Open Scope stdpp_scope.

(** ** Centroid accumulator *)

Module Centroid.

(** Modelled from the spec: [PointsCentroid] of [nominatim_db/utils/centroid.py],
    which is not among the sources.  Its state is the running sum of x, the
    running sum of y and the number of points folded; folding adds one point;
    [centroid] is the arithmetic mean (sum_x/count, sum_y/count). *)
Record PointsCentroid := mkCentroid {
  sum_x : Q;
  sum_y : Q;
  count : Z
}.

(** [PointsCentroid()], the default factory of the collector's mapping. *)
Definition init : PointsCentroid := mkCentroid 0%Q 0%Q 0%Z.

(** [acc += (x, y)] *)
Definition iadd (acc : PointsCentroid) (p : Q * Q) : PointsCentroid :=
  mkCentroid (sum_x acc + fst p)%Q (sum_y acc + snd p)%Q (count acc + 1)%Z.

(** [acc.centroid()] *)
Definition centroid (acc : PointsCentroid) : Q * Q :=
  ((sum_x acc / inject_Z (count acc))%Q, (sum_y acc / inject_Z (count acc))%Q).

End Centroid.

Export Centroid.

(** ** Python values shared by the two source files *)

(** The exceptions the modelled code can raise, and [AttributeError],
    which a call of a [str] method on [None] raises. *)
Inductive pyexn := ValueError | TypeError | IndexError | AttributeError.

(** The result of an expression that may raise. *)
Inductive pyresult (A : Type) :=
| Ok (a : A)
| Raise (e : pyexn).
Arguments Ok {A} a.
Arguments Raise {A} e.

(** How a statement block ends: it runs to its end (or returns), or an
    exception leaves it. *)
Inductive completion := Normal | Raised (e : pyexn).

(** A Python [float]: a finite number, an infinity or NaN. *)
Inductive pyfloat :=
| Finite (q : Q)
| Infinite (negative : bool)
| NaN.

(** [a > b] on numbers. *)
Definition Qgt_bool (a b : Q) : bool := negb (Qle_bool a b).

(** ** The postcode collector *)

Module Postcodes.

(** A record of [LOG]. *)
Inductive LogRecord :=
| InfoProcessing (country : string) (added deleted updated : nat)
| InfoExternalFile (fname : string)
| WarnBadFormat (country : string)
| WarnBadCoordinates (lat lon : option string) (country : string).

Section Collector.

(** What [CountryPostcodeMatcher.match] returns on success (a [re.Match]
    in the source; [nominatim_db/data/postcode_format.py] is not among
    the sources, so the matcher is taken as given). *)
Variable Match : Type.

Record CountryPostcodeMatcher := mkMatcher {
  (** [matcher.match(postcode)]: a match object or [None]. *)
  pc_match : string -> option Match;
  (** [matcher.normalize(match)]: the canonical postcode or [None]. *)
  pc_normalize : Match -> option string
}.

(** [class _PostcodeCollector] *)
Record _PostcodeCollector := mkCollector {
  country : string;
  matcher : option CountryPostcodeMatcher;
  collected : gmap string PointsCentroid;
  normalization_cache : option (string * option string)
}.

(** [_PostcodeCollector.__init__] *)
Definition new (country : string) (matcher : option CountryPostcodeMatcher)
  : _PostcodeCollector :=
  mkCollector country matcher ∅ None.

(** [collected[key] += point] on a [defaultdict(PointsCentroid)]: a missing
    key starts from a fresh accumulator. *)
Definition collected_iadd (m : gmap string PointsCentroid) (key : string)
    (point : Q * Q) : gmap string PointsCentroid :=
  <[key := iadd (default init (m !! key)) point]> m.

(** [matcher.normalize(match) if match else None] *)
Definition match_normalize (m : CountryPostcodeMatcher) (postcode : string)
  : option string :=
  match pc_match m postcode with
  | Some mt => pc_normalize m mt
  | None => None
  end.

(** [if normalized: self.collected[normalized] += (x, y)]: [None] and the
    empty string are both false. *)
Definition add_normalized (m : gmap string PointsCentroid)
    (normalized : option string) (x y : Q) : gmap string PointsCentroid :=
  match normalized with
  | Some n => if String.eqb n "" then m else collected_iadd m n (x, y)
  | None => m
  end.

(** [_PostcodeCollector.add] *)
Definition add (self : _PostcodeCollector) (postcode : string) (x y : Q)
  : _PostcodeCollector :=
  match matcher self with
  | Some m =>
      let fresh :=
        let normalized := match_normalize m postcode in
        (normalized, Some (postcode, normalized)) in
      let '(normalized, cache) :=
        match normalization_cache self with
        | Some (raw, cached) =>
            if String.eqb raw postcode
            then (cached, normalization_cache self)
            else fresh
        | None => fresh
        end in
      mkCollector (country self) (matcher self)
                  (add_normalized (collected self) normalized x y) cache
  | None => self
  end.

(** The variant of [add] that runs [match] and [normalize] on every call
    and neither reads nor writes [normalization_cache]. *)
Definition add_uncached (self : _PostcodeCollector) (postcode : string) (x y : Q)
  : _PostcodeCollector :=
  match matcher self with
  | Some m =>
      mkCollector (country self) (matcher self)
                  (add_normalized (collected self) (match_normalize m postcode) x y)
                  (normalization_cache self)
  | None => self
  end.

(** A run of [add] calls, one per source row [(postcode, x, y)]. *)
Definition add_all (add : _PostcodeCollector -> string -> Q -> Q -> _PostcodeCollector)
    (rows : list (string * Q * Q)) (self : _PostcodeCollector) : _PostcodeCollector :=
  fold_left (fun c '(postcode, x, y) => add c postcode x y) rows self.

(** *** External postcode files *)

(** Python's built-in [float(numstr)] on a string: the parsed value, or
    [None] when it raises [ValueError]. *)
Variable py_float : string -> option pyfloat.

(** [_to_float].  The argument is [row['lon']] or [row['lat']], which
    [csv.DictReader] leaves [None] for a record shorter than the header;
    [float(None)] raises [TypeError]. *)
Definition _to_float (numstr : option string) (max_value : Q) : pyresult Q :=
  match numstr with
  | None => Raise TypeError
  | Some s =>
      match py_float s with
      | None => Raise ValueError
      | Some (Finite num) =>
          if Qle_bool num (- max_value)%Q || Qle_bool max_value num
          then Raise ValueError
          else Ok num
      | Some _ => Raise ValueError
      end
  end.

(** A file as [csv.reader] sees it: the header record and the data
    records.  Quoting and delimiters are the [csv] module's business. *)
Record csvfile := mkCsv {
  fieldnames : list string;
  records : list (list string)
}.

(** [zip(fieldnames, row)], then [restval] ([None]) for the field names a
    short record leaves without a value. *)
Fixpoint zip_restval (names : list string) (record : list string)
  : list (string * option string) :=
  match names, record with
  | [], _ => []
  | k :: names', [] => (k, None) :: zip_restval names' []
  | k :: names', v :: record' => (k, Some v) :: zip_restval names' record'
  end.

(** The dict [csv.DictReader] builds for one record; a later duplicate of
    a field name overwrites an earlier one.  The surplus values of a long
    record go under the key [None], which no lookup below reads. *)
Definition DictReader_row (names : list string) (record : list string)
  : gmap string (option string) :=
  fold_left (fun d '(k, v) => <[k := v]> d) (zip_restval names record) ∅.

Definition nonblank (record : list string) : bool :=
  match record with [] => false | _ => true end.

(** [csv.DictReader(csvfile)]: one dict per record, blank records skipped. *)
Definition DictReader (f : csvfile) : list (gmap string (option string)) :=
  map (DictReader_row (fieldnames f)) (List.filter nonblank (records f)).

(** [AbstractAnalyzer], as far as this module uses it.
    [normalize_postcode] is declared from [str] to [str].  The module also
    hands it [None] (see [external_rows]); what the method does then is
    the analyzer's own business and is the second field: it raises, or it
    returns a key.  An analyzer that answers [None] with something that is
    not a [str], against the declared return type, has no counterpart
    here. *)
Record AbstractAnalyzer := mkAnalyzer {
  normalize_postcode : string -> string;
  normalize_postcode_of_None : pyresult string
}.

(** [analyzer.normalize_postcode(value)] for the value a row holds under
    a key. *)
Definition normalize_value (analyzer : AbstractAnalyzer) (value : option string)
  : pyresult string :=
  match value with
  | Some raw => Ok (normalize_postcode analyzer raw)
  | None => normalize_postcode_of_None analyzer
  end.

(** A project directory: the files in it, by name. *)
Abbreviation directory := (gmap string csvfile).

(** [_PostcodeCollector._open_external]: the plain file, else the gzipped
    one, else [None]. *)
Definition _open_external (self : _PostcodeCollector) (project_dir : directory)
    (log : list LogRecord) : option csvfile * list LogRecord :=
  let fname := String.append (country self) "_postcodes.csv" in
  match project_dir !! fname with
  | Some f => (Some f, log ++ [InfoExternalFile fname])
  | None =>
      let fname := String.append (country self) "_postcodes.csv.gz" in
      match project_dir !! fname with
      | Some f => (Some f, log ++ [InfoExternalFile fname])
      | None => (None, log)
      end
  end.

(** The [for row in reader] loop of [_update_from_external].  A [return]
    ends it with [Normal].  Only [ValueError] from the two conversions is
    caught; any other exception, and any exception of the analyzer, leaves
    the loop.  For a record too short to reach the postcode column
    [row['postcode']] is [None], and [analyzer.normalize_postcode] is
    called on it. *)
Fixpoint external_rows (analyzer : AbstractAnalyzer)
    (rows : list (gmap string (option string)))
    (self : _PostcodeCollector) (log : list LogRecord)
  : _PostcodeCollector * list LogRecord * completion :=
  match rows with
  | [] => (self, log, Normal)
  | row :: rest =>
      match row !! "postcode", row !! "lat", row !! "lon" with
      | Some pc, Some lat, Some lon =>
          match normalize_value analyzer pc with
          | Raise e => (self, log, Raised e)
          | Ok postcode =>
              match collected self !! postcode with
              | Some _ => external_rows analyzer rest self log
              | None =>
                  let bad := log ++ [WarnBadCoordinates lat lon (country self)] in
                  match _to_float lon 180%Q with
                  | Raise ValueError => external_rows analyzer rest self bad
                  | Raise e => (self, log, Raised e)
                  | Ok x =>
                      match _to_float lat 90%Q with
                      | Raise ValueError => external_rows analyzer rest self bad
                      | Raise e => (self, log, Raised e)
                      | Ok y =>
                          external_rows analyzer rest
                            (mkCollector (country self) (matcher self)
                               (collected_iadd (collected self) postcode (x, y))
                               (normalization_cache self))
                            log
                      end
                  end
              end
          end
      | _, _, _ => (self, log ++ [WarnBadFormat (country self)], Normal)
      end
  end.

(** [_PostcodeCollector._update_from_external] *)
Definition _update_from_external (self : _PostcodeCollector)
    (analyzer : AbstractAnalyzer) (project_dir : directory) (log : list LogRecord)
  : _PostcodeCollector * list LogRecord * completion :=
  match _open_external self project_dir log with
  | (None, log') => (self, log', Normal)
  | (Some csvfile, log') => external_rows analyzer (DictReader csvfile) self log'
  end.

(** *** The stored table *)

(** A row of [location_postcode].  [place_id], drawn from a sequence on
    insertion, identifies the row only and is left out. *)
Record PostcodeRow := mkRow {
  indexed_status : Z;
  country_code : string;
  postcode : string;
  geometry : Q * Q
}.

(** The data-changing statements [commit] sends, with their arguments. *)
Inductive Statement :=
| Insert (country : string) (to_add : list (string * Q * Q))
| Delete (country : string) (to_delete : list string)
| Update (country : string) (to_update : list (Q * Q * string)).

(** The connection: the table as it stands and the statements executed
    on it so far, latest last. *)
Record Connection := mkConn {
  location_postcode : list PostcodeRow;
  executed : list Statement
}.

(** [SELECT postcode, ST_X(geometry), ST_Y(geometry) FROM location_postcode
     WHERE country_code = %s] *)
Definition select_postcodes (country : string) (table : list PostcodeRow)
  : list (string * Q * Q) :=
  map (fun r => (postcode r, fst (geometry r), snd (geometry r)))
      (List.filter (fun r => String.eqb (country_code r) country) table).

(** [INSERT INTO location_postcode ... VALUES (nextval('seq_place'), 1, country, %s,
     ST_SetSRID(ST_MakePoint(%s, %s), 4326))], once per element of [to_add]. *)
Definition insert_postcodes (country : string) (to_add : list (string * Q * Q))
    (table : list PostcodeRow) : list PostcodeRow :=
  table ++ map (fun '(pc, x, y) => mkRow 1 country pc (x, y)) to_add.

(** [DELETE FROM location_postcode WHERE country_code = %s and postcode = any(%s)] *)
Definition delete_postcodes (country : string) (to_delete : list string)
    (table : list PostcodeRow) : list PostcodeRow :=
  List.filter
    (fun r => negb (String.eqb (country_code r) country
                    && existsb (String.eqb (postcode r)) to_delete))
    table.

(** [UPDATE location_postcode SET indexed_status = 2, geometry = ST_SetSRID(ST_Point(%s, %s), 4326)
     WHERE country_code = country and postcode = %s], for one element of [to_update]. *)
Definition update_postcode (country : string) (table : list PostcodeRow)
    (u : Q * Q * string) : list PostcodeRow :=
  let '(x, y, pc) := u in
  map (fun r =>
         if String.eqb (country_code r) country && String.eqb (postcode r) pc
         then mkRow 2 (country_code r) (postcode r) (x, y)
         else r)
      table.

(** [cur.executemany] of the update, once per element of [to_update]. *)
Definition update_postcodes_rows (country : string) (to_update : list (Q * Q * string))
    (table : list PostcodeRow) : list PostcodeRow :=
  fold_left (update_postcode country) to_update table.

(** *** The diff *)

(** The tolerance of [_compute_changes], [0.0000001]. *)
Definition tolerance : Q := 1 # 10000000.

(** [(x - newx) > 0.0000001 or (y - newy) > 0.0000001] *)
Definition moved (x y newx newy : Q) : bool :=
  Qgt_bool (x - newx)%Q tolerance || Qgt_bool (y - newy)%Q tolerance.

(** The three lists [_compute_changes] returns: [to_add] holds
    [(postcode, x, y)], [to_delete] postcodes, [to_update] [(x, y, postcode)]. *)
Abbreviation changes :=
  (list (string * Q * Q) * list string * list (Q * Q * string))%type.

(** One pass of [for postcode, x, y in cur]: the state is [self.collected],
    [to_update] and [to_delete].  [pop] removes the key; [if pcobj] is read
    as the test for a popped accumulator, since an accumulator of the
    mapping always holds a point. *)
Definition changes_step
    (st : gmap string PointsCentroid * list (Q * Q * string) * list string)
    (row : string * Q * Q)
  : gmap string PointsCentroid * list (Q * Q * string) * list string :=
  let '(coll, to_update, to_delete) := st in
  let '(postcode, x, y) := row in
  match coll !! postcode with
  | Some pcobj =>
      let '(newx, newy) := centroid pcobj in
      (delete postcode coll,
       if moved x y newx newy then to_update ++ [(newx, newy, postcode)] else to_update,
       to_delete)
  | None => (coll, to_update, to_delete ++ [postcode])
  end.

(** [_PostcodeCollector._compute_changes]: the collector with its mapping
    reset, and [(to_add, to_delete, to_update)]. *)
Definition _compute_changes (self : _PostcodeCollector) (conn : Connection)
  : _PostcodeCollector * changes :=
  let '(coll, to_update, to_delete) :=
    fold_left changes_step
              (select_postcodes (country self) (location_postcode conn))
              (collected self, [], []) in
  let to_add :=
    map (fun '(k, v) => (k, fst (centroid v), snd (centroid v))) (map_to_list coll) in
  (mkCollector (country self) (matcher self) ∅ (normalization_cache self),
   (to_add, to_delete, to_update)).

Definition nonempty {A} (l : list A) : bool :=
  match l with [] => false | _ => true end.

(** The statements of [commit], each sent only for a non-empty list. *)
Definition execute_changes (country : string) (ch : changes) (conn : Connection)
  : Connection :=
  let '(to_add, to_delete, to_update) := ch in
  let conn :=
    if nonempty to_add
    then mkConn (insert_postcodes country to_add (location_postcode conn))
                (executed conn ++ [Insert country to_add])
    else conn in
  let conn :=
    if nonempty to_delete
    then mkConn (delete_postcodes country to_delete (location_postcode conn))
                (executed conn ++ [Delete country to_delete])
    else conn in
  if nonempty to_update
  then mkConn (update_postcodes_rows country to_update (location_postcode conn))
              (executed conn ++ [Update country to_update])
  else conn.

(** [if project_dir is not None: self._update_from_external(analyzer, project_dir)] *)
Definition merge_external (self : _PostcodeCollector) (analyzer : AbstractAnalyzer)
    (project_dir : option directory) (log : list LogRecord)
  : _PostcodeCollector * list LogRecord * completion :=
  match project_dir with
  | Some dir => _update_from_external self analyzer dir log
  | None => (self, log, Normal)
  end.

(** [_PostcodeCollector.commit] *)
Definition commit (self : _PostcodeCollector) (conn : Connection)
    (analyzer : AbstractAnalyzer) (project_dir : option directory)
    (log : list LogRecord)
  : _PostcodeCollector * Connection * list LogRecord * completion :=
  match merge_external self analyzer project_dir log with
  | (self, log, Raised e) => (self, conn, log, Raised e)
  | (self, log, Normal) =>
      let '(self', (to_add, to_delete, to_update)) := _compute_changes self conn in
      let log :=
        log ++ [InfoProcessing (country self) (length to_add) (length to_delete)
                               (length to_update)] in
      (self', execute_changes (country self) (to_add, to_delete, to_update) conn,
       log, Normal)
  end.

(** *** The driver *)

(** [PostcodeFormatter().get_matcher]: the matcher of a country, [None]
    for a country without postcodes. *)
Variable get_matcher : string -> option CountryPostcodeMatcher.

(** [AbstractTokenizer], as far as this module uses it. *)
Record AbstractTokenizer := mkTokenizer {
  name_analyzer : AbstractAnalyzer
}.

(** [SELECT DISTINCT country_code FROM location_postcode], as a set. *)
Definition stored_countries (table : list PostcodeRow) : gset string :=
  list_to_set (map country_code table).

(** The state of [update_postcodes] between two source rows. *)
Record DriverState := mkDriver {
  collector : option _PostcodeCollector;
  todo_countries : gset string;
  conn : Connection;
  log : list LogRecord
}.

(** [if collector is not None: collector.commit(conn, analyzer, project_dir)] *)
Definition commit_open (analyzer : AbstractAnalyzer) (project_dir : option directory)
    (st : DriverState) : Connection * list LogRecord * completion :=
  match collector st with
  | Some c =>
      let '(_, conn', log', status) := commit c (conn st) analyzer project_dir (log st) in
      (conn', log', status)
  | None => (conn st, log st, Normal)
  end.

(** [for country, postcode, x, y in cur] over the rows of the placex query. *)
Fixpoint stream_loop (analyzer : AbstractAnalyzer) (project_dir : option directory)
    (rows : list (string * string * Q * Q)) (st : DriverState)
  : DriverState * completion :=
  match rows with
  | [] => (st, Normal)
  | (cc, pc, x, y) :: rest =>
      let switch :=
        match collector st with
        | None => true
        | Some c => negb (String.eqb cc (country c))
        end in
      if switch then
        match commit_open analyzer project_dir st with
        | (conn', log', Normal) =>
            let c := new cc (get_matcher cc) in
            stream_loop analyzer project_dir rest
              (mkDriver (Some (add c pc x y)) (todo_countries st ∖ {[cc]}) conn' log')
        | (conn', log', Raised e) =>
            (mkDriver (collector st) (todo_countries st) conn' log', Raised e)
        end
      else
        match collector st with
        | Some c =>
            stream_loop analyzer project_dir rest
              (mkDriver (Some (add c pc x y)) (todo_countries st) (conn st) (log st))
        | None => (st, Normal)
        end
  end.

(** [for country in todo_countries], in the order the set yields them. *)
Fixpoint todo_loop (analyzer : AbstractAnalyzer) (project_dir : option directory)
    (todo : list string) (conn : Connection) (log : list LogRecord)
  : Connection * list LogRecord * completion :=
  match todo with
  | [] => (conn, log, Normal)
  | country :: rest =>
      let fmt := get_matcher country in
      match commit (new country fmt) conn analyzer project_dir log with
      | (_, conn', log', Normal) => todo_loop analyzer project_dir rest conn' log'
      | (_, conn', log', Raised e) => (conn', log', Raised e)
      end
  end.

(** [update_postcodes].  [placex] is the result of the query over [place]
    and [placex], rows [(cc, pc, x, y)].  The closing [conn.commit()] and
    [analyzer.update_postcodes_from_db()] act on the transaction and on the
    tokenizer, which are not modelled: the connection returned with
    [Raised] shows the statements sent before the exception, not what a
    rollback leaves. *)
Definition update_postcodes (conn0 : Connection) (project_dir : option directory)
    (tokenizer : AbstractTokenizer) (placex : list (string * string * Q * Q))
    (log0 : list LogRecord) : Connection * list LogRecord * completion :=
  let analyzer := name_analyzer tokenizer in
  let todo := stored_countries (location_postcode conn0) in
  match stream_loop analyzer project_dir placex (mkDriver None todo conn0 log0) with
  | (st, Raised e) => (conn st, log st, Raised e)
  | (st, Normal) =>
      match commit_open analyzer project_dir st with
      | (conn', log', Raised e) => (conn', log', Raised e)
      | (conn', log', Normal) =>
          todo_loop analyzer project_dir (elements (todo_countries st)) conn' log'
      end
  end.

End Collector.

Arguments mkMatcher {Match}.
Arguments pc_match {Match}.
Arguments pc_normalize {Match}.
Arguments mkCollector {Match}.
Arguments country {Match}.
Arguments matcher {Match}.
Arguments collected {Match}.
Arguments normalization_cache {Match}.
Arguments new {Match}.
Arguments match_normalize {Match}.
Arguments add {Match}.
Arguments add_uncached {Match}.
Arguments add_all {Match}.
Arguments _open_external {Match}.
Arguments external_rows {Match}.
Arguments _update_from_external {Match}.
Arguments _compute_changes {Match}.
Arguments merge_external {Match}.
Arguments commit {Match}.
Arguments mkDriver {Match}.
Arguments collector {Match}.
Arguments todo_countries {Match}.
Arguments conn {Match}.
Arguments log {Match}.
Arguments commit_open {Match}.
Arguments stream_loop {Match}.
Arguments todo_loop {Match}.
Arguments update_postcodes {Match}.

End Postcodes.

(** ** Version strings *)

Module Version.

(** [class NominatimVersion(NamedTuple)].  The fields are annotated [int];
    [__str__] also provides for a [db_patch_level] of [None]. *)
Record NominatimVersion := mkVersion {
  major : Z;
  minor : Z;
  patch_level : Z;
  db_patch_level : option Z
}.

(** [str(n)] of an [int]: decimal digits, a leading minus sign for a
    negative number. *)
Definition str_int (n : Z) : string := NilZero.string_of_int (Z.to_int n).

(** [NominatimVersion.__str__] *)
Definition __str__ (self : NominatimVersion) : string :=
  let release :=
    String.append (str_int (major self))
      (String.append "."
         (String.append (str_int (minor self))
            (String.append "." (str_int (patch_level self))))) in
  match db_patch_level self with
  | None => release
  | Some d => String.append release (String.append "-" (str_int d))
  end.

(** [NominatimVersion.release_version] *)
Definition release_version (self : NominatimVersion) : string :=
  String.append (str_int (major self))
    (String.append "."
       (String.append (str_int (minor self))
          (String.append "." (str_int (patch_level self))))).

(** [s.split(sep)] for a separator of one character. *)
Fixpoint split (sep : ascii) (s : string) : list string :=
  match s with
  | EmptyString => [EmptyString]
  | String c r =>
      if Ascii.eqb c sep then EmptyString :: split sep r
      else match split sep r with
           | h :: t => String c h :: t
           | [] => [String c EmptyString]
           end
  end.

(** The white space [int()] strips from ASCII text: tab to carriage
    return (9 to 13), and the space. *)
Definition is_space (c : ascii) : bool :=
  let n := nat_of_ascii c in
  (Nat.leb 9 n && Nat.leb n 13) || Nat.eqb n 32.

Fixpoint lstrip (s : string) : string :=
  match s with
  | String c r => if is_space c then lstrip r else s
  | EmptyString => EmptyString
  end.

Fixpoint rstrip (s : string) : string :=
  match s with
  | String c r =>
      match rstrip r with
      | EmptyString => if is_space c then EmptyString else String c EmptyString
      | r' => String c r'
      end
  | EmptyString => EmptyString
  end.

Definition strip (s : string) : string := rstrip (lstrip s).

(** A decimal digit, as the constructor that puts it in front of a number. *)
Definition digit (c : ascii) : option (Decimal.uint -> Decimal.uint) :=
  match c with
  | "0" => Some Decimal.D0
  | "1" => Some Decimal.D1
  | "2" => Some Decimal.D2
  | "3" => Some Decimal.D3
  | "4" => Some Decimal.D4
  | "5" => Some Decimal.D5
  | "6" => Some Decimal.D6
  | "7" => Some Decimal.D7
  | "8" => Some Decimal.D8
  | "9" => Some Decimal.D9
  | _ => None
  end%char.

(** The digits of an integer literal: at least one digit, single
    underscores allowed between digits only. *)
Fixpoint int_digits (s : string) (after_digit : bool) : option Decimal.uint :=
  match s with
  | EmptyString => if after_digit then Some Decimal.Nil else None
  | String c r =>
      if Ascii.eqb c "_"
      then (if after_digit then int_digits r false else None)
      else match digit c with
           | Some d => option_map d (int_digits r true)
           | None => None
           end
  end.

(** [int(x)] of a string of ASCII text, base ten. *)
Definition py_int (x : string) : pyresult Z :=
  let s := strip x in
  let '(negative, body) :=
    match s with
    | String "-" r => (true, r)
    | String "+" r => (false, r)
    | _ => (false, s)
    end in
  match int_digits body false with
  | Some d => Ok (if negative : bool then (- Z.of_uint d)%Z else Z.of_uint d)
  | None => Raise ValueError
  end.

(** [[int(x) for x in l]]: the first failing conversion raises. *)
Fixpoint ints (l : list string) : pyresult (list Z) :=
  match l with
  | [] => Ok []
  | x :: rest =>
      match py_int x with
      | Raise e => Raise e
      | Ok n =>
          match ints rest with
          | Raise e => Raise e
          | Ok ns => Ok (n :: ns)
          end
      end
  end.

(** [parse_version].  [parts[2]] raises [IndexError] when there are fewer
    than three parts; the constructor called with other than four
    arguments raises [TypeError]. *)
Definition parse_version (version : string) : pyresult NominatimVersion :=
  let parts := split "." version in
  match nth_error parts 2 with
  | None => Raise IndexError
  | Some third =>
      match ints (firstn 2 parts ++ split "-" third) with
      | Raise e => Raise e
      | Ok [a; b; c; d] => Ok (mkVersion a b c (Some d))
      | Ok _ => Raise TypeError
      end
  end.

(** [NOMINATIM_VERSION = parse_version('5.1.0-0')] *)
Definition NOMINATIM_VERSION : pyresult NominatimVersion := parse_version "5.1.0-0".

End Version.

(** ** Sample collaborators

    Concrete instances of the collaborators the module takes as given,
    for the examples below. *)

Module Fixtures.
Import Postcodes.

(** A matcher in the shape of the five-digit countries: a postcode
    matches when it has five characters, and is normalized to itself. *)
Definition five_matcher : CountryPostcodeMatcher string :=
  mkMatcher (fun s => if Nat.eqb (String.length s) 5 then Some s else None)
            (fun m => Some m).

(** An analyzer that leaves a postcode as it is written and, handed
    [None], fails as a call of a [str] method on it does. *)
Definition plain_analyzer : AbstractAnalyzer :=
  mkAnalyzer (fun s => s) (Raise AttributeError).

(** [float()] on plain decimal literals, "[+-]digits[.digits]", and on
    "nan", "inf" and "-inf": a fragment of what Python's [float] reads
    (no exponent, no underscores). *)
Definition decimal_float (numstr : string) : option pyfloat :=
  let s := Version.strip numstr in
  if String.eqb s "nan" then Some NaN
  else if String.eqb s "inf" then Some (Infinite false)
  else if String.eqb s "-inf" then Some (Infinite true)
  else
    let '(negative, body) :=
      match s with
      | String "-" r => (true, r)
      | String "+" r => (false, r)
      | _ => (false, s)
      end in
    let sign (q : Q) : Q := if negative : bool then (- q)%Q else q in
    match Version.split "." body with
    | [i] =>
        match NilEmpty.uint_of_string i with
        | Some (Decimal.Nil) | None => None
        | Some d => Some (Finite (sign (inject_Z (Z.of_uint d))))
        end
    | [i; f] =>
        match NilEmpty.uint_of_string i, NilEmpty.uint_of_string f with
        | Some Decimal.Nil, Some Decimal.Nil => None
        | Some di, Some df =>
            Some (Finite (sign (Qmake (Z.of_uint (Decimal.app di df))
                                      (Z.to_pos (10 ^ Z.of_nat (String.length f))))))
        | _, _ => None
        end
    | _ => None
    end.

(** A collector for "de" that has seen one source row. *)
Definition de_collector : _PostcodeCollector string :=
  add (new "de" (Some five_matcher)) "10115" 13 52.

(** Source rows with a run of equal raw postcodes and one that does not match. *)
Definition de_rows : list (string * Q * Q) :=
  [("10115", 13, 52); ("10115", 13.2, 52.2); ("1011", 1, 1); ("10117", 13.4, 52.5);
   ("10115", 13.1, 52.1)]%Q.

(** An external file: one row for a postcode the database already gave,
    one with a latitude out of range, one good row. *)
Definition de_file : csvfile :=
  mkCsv ["postcode"; "lat"; "lon"]
        [["10115"; "1.0"; "2.0"]; ["11111"; "95.0"; "10.0"]; ["22222"; "50.0"; "10.0"]].

Definition de_dir : gmap string csvfile := {["de_postcodes.csv" := de_file]}.

(** A file with a misspelt column, and one that is a header and nothing else. *)
Definition typo_file : csvfile :=
  mkCsv ["postode"; "lat"; "lon"] [["AB 4511"; "-4"; "-1"]; ["CD 4511"; "-5"; "-10"]].

Definition header_only_file : csvfile := mkCsv ["postcode"; "lat"] [].

(** A stored table with postcodes of two countries, and a connection on it. *)
Definition sample_table : list PostcodeRow :=
  [mkRow 0 "de" "10115" (14, 53); mkRow 0 "de" "99999" (1, 1);
   mkRow 0 "it" "00100" (12.5, 41.9); mkRow 0 "it" "00200" (12.6, 41.8)]%Q.

Definition sample_conn : Connection := mkConn sample_table [].

(** The result of the placex query: rows for "de" only. *)
Definition sample_placex : list (string * string * Q * Q) :=
  [("de", "10115", 13, 52); ("de", "10115", 13.2, 52.2); ("de", "10117", 13.4, 52.5)]%Q.

(** Every country has five-character postcodes. *)
Definition all_five (country : string) : option (CountryPostcodeMatcher string) :=
  Some five_matcher.

Definition plain_tokenizer : AbstractTokenizer := mkTokenizer plain_analyzer.

(** One stored postcode whose recomputed centroid lies east of the stored
    point: the table, and the collector after its one source row. *)
Definition drift_conn : Connection := mkConn [mkRow 0 "de" "10115" (13, 52)%Q] [].

Definition drift_collector : _PostcodeCollector string :=
  add (new "de" (Some five_matcher)) "10115" 13.5 52.

(** An external file whose first record stops before the [lon] column;
    the record after it is complete and valid. *)
Definition ragged_file : csvfile :=
  mkCsv ["postcode"; "lat"; "lon"] [["33333"; "50.0"]; ["22222"; "50.0"; "10.0"]].

(** An external file for "it": a stored postcode at a point east of the
    stored one, a row with a latitude out of range, and a new postcode. *)
Definition it_file : csvfile :=
  mkCsv ["postcode"; "lat"; "lon"]
        [["00100"; "41.9"; "13.0"]; ["00999"; "95.0"; "10.0"]; ["00300"; "41.7"; "12.4"]].

Definition it_dir : gmap string csvfile :=
  {["de_postcodes.csv" := de_file; "it_postcodes.csv" := it_file]}.

(** The result of the placex query with rows of three countries, in the
    order of the query. *)
Definition mixed_placex : list (string * string * Q * Q) :=
  [("at", "10100", 16.4, 48.2); ("de", "10115", 13, 52); ("de", "10115", 13.2, 52.2);
   ("de", "10117", 13.4, 52.5); ("fr", "75001", 2.3, 48.9)]%Q.

End Fixtures.

(** ** Vocabulary of the statements *)

Module Vocabulary.

(** Every character of [s] is a decimal digit. *)
Fixpoint digits_only (s : string) : bool :=
  match s with
  | EmptyString => true
  | String c r =>
      match Version.digit c with Some _ => digits_only r | None => false end
  end.

(** The character [sep] does not occur in [s]. *)
Fixpoint sep_free (sep : ascii) (s : string) : bool :=
  match s with
  | EmptyString => true
  | String c r => negb (Ascii.eqb c sep) && sep_free sep r
  end.

(** *** The diff, stated *)

Import Postcodes.

(** The postcode of a selected row [(postcode, x, y)]. *)
Definition key (row : string * Q * Q) : string := row.1.1.

(** The postcodes stored for a country, in table order. *)
Definition stored_postcodes (country : string) (table : list PostcodeRow)
  : list string :=
  map key (select_postcodes country table).

(** At most one stored record per (country, postcode). *)
Definition unique_postcodes (country : string) (table : list PostcodeRow) : Prop :=
  NoDup (stored_postcodes country table).

(** What a stored row contributes to [to_update], given the collected
    mapping: the recomputed centroid when the key is collected and the
    stored point has moved. *)
Definition update_of (coll : gmap string PointsCentroid) (row : string * Q * Q)
  : option (Q * Q * string) :=
  let '(k, x, y) := row in
  match coll !! k with
  | Some acc =>
      let '(newx, newy) := centroid acc in
      if moved x y newx newy then Some (newx, newy, k) else None
  | None => None
  end.

(** [k not in coll] *)
Definition absent (coll : gmap string PointsCentroid) (k : string) : bool :=
  match coll !! k with Some _ => false | None => true end.

(** The postcodes of the buckets. *)
Definition add_keys (to_add : list (string * Q * Q)) : list string := map key to_add.
Definition update_keys (to_update : list (Q * Q * string)) : list string :=
  map snd to_update.

(** A postcode is unchanged: it is stored and collected, and the stored
    point has not moved by the test of [_compute_changes]. *)
Definition unchanged (coll : gmap string PointsCentroid)
    (stored : list (string * Q * Q)) (k : string) : Prop :=
  exists x y acc,
    (k, x, y) ∈ stored /\ coll !! k = Some acc /\
    moved x y (centroid acc).1 (centroid acc).2 = false.

(** Exactly one of four propositions holds. *)
Definition exactly_one (A B C D : Prop) : Prop :=
  (A \/ B \/ C \/ D) /\
  ~ (A /\ B) /\ ~ (A /\ C) /\ ~ (A /\ D) /\ ~ (B /\ C) /\ ~ (B /\ D) /\ ~ (C /\ D).

(** What the loop of [_compute_changes] leaves of the mapping. *)
Definition remaining (coll : gmap string PointsCentroid)
    (rows : list (string * Q * Q)) : gmap string PointsCentroid :=
  fold_left (fun m r => delete (key r) m) rows coll.

(** The [to_add] entry of a remaining item: [(k, *v.centroid())]. *)
Definition add_of (kv : string * PointsCentroid) : string * Q * Q :=
  (kv.1, (centroid kv.2).1, (centroid kv.2).2).

(** *** The table, row by row *)

(** What the select returns for a row. *)
Definition row_tuple (r : PostcodeRow) : string * Q * Q :=
  (postcode r, fst (geometry r), snd (geometry r)).

(** [country_code = c] *)
Definition of_country (c : string) (r : PostcodeRow) : bool :=
  String.eqb (country_code r) c.

(** The update statement for [u], on one row. *)
Definition update_row (c : string) (r : PostcodeRow) (u : Q * Q * string)
  : PostcodeRow :=
  if String.eqb (country_code r) c && String.eqb (postcode r) u.2
  then mkRow 2 (country_code r) (postcode r) (u.1.1, u.1.2)
  else r.

(** All update statements of a list, on one row. *)
Definition apply_updates (c : string) (l : list (Q * Q * string)) (r : PostcodeRow)
  : PostcodeRow :=
  fold_left (update_row c) l r.

(** The postcode of the row is not among those to delete. *)
Definition kept (to_delete : list string) (r : PostcodeRow) : bool :=
  negb (existsb (String.eqb (postcode r)) to_delete).

(** The row an insert statement creates. *)
Definition new_row (c : string) (a : string * Q * Q) : PostcodeRow :=
  mkRow 1 c a.1.1 (a.1.2, a.2).

(** *** The external merge, stated *)

(** The string parses to the finite number [v], strictly inside
    [(-max_value, max_value)]. *)
Definition valid_coordinate (py_float : string -> option pyfloat)
    (s : string) (max_value v : Q) : Prop :=
  py_float s = Some (Finite v) /\ (- max_value < v)%Q /\ (v < max_value)%Q.

(** The collector with another mapping. *)
Definition with_collected {Match} (self : _PostcodeCollector Match)
    (coll : gmap string PointsCentroid) : _PostcodeCollector Match :=
  mkCollector (country self) (matcher self) coll (normalization_cache self).

(** The header lacks one of the columns the merge needs. *)
Definition missing_column (f : csvfile) : Prop :=
  "postcode" ∉ fieldnames f \/ "lat" ∉ fieldnames f \/ "lon" ∉ fieldnames f.

(** *** The collector, stated *)

(** The cache slot, when filled, holds what the pipeline gives for its
    raw postcode. *)
Definition cache_coherent {Match} (self : _PostcodeCollector Match) : Prop :=
  match matcher self, normalization_cache self with
  | Some m, Some (raw, cached) => cached = match_normalize m raw
  | _, _ => True
  end.

(** *** The driver, stated *)

(** The country a statement is for. *)
Definition statement_country (s : Statement) : string :=
  match s with Insert c _ | Delete c _ | Update c _ => c end.

(** From [(conn, log)] to [(conn', log')] the rows of country [c] stay as
    they are, no statement for [c] is sent, and the log grows. *)
Definition quiet (c : string) (before after : Connection * list LogRecord) : Prop :=
  List.filter (of_country c) (location_postcode after.1) =
    List.filter (of_country c) (location_postcode before.1) /\
  (exists stmts, executed after.1 = executed before.1 ++ stmts /\
     forall s, s ∈ stmts -> statement_country s <> c) /\
  (exists logs, after.2 = before.2 ++ logs).

(** The open collector, if any, is for another country than [c]. *)
Definition other_country {Match} (c : string)
    (collector : option (_PostcodeCollector Match)) : Prop :=
  forall col, collector = Some col -> country col <> c.




(** *** Invariants, stated *)

(** Every accumulator of the mapping holds at least one point. *)
Definition counted (coll : gmap string PointsCentroid) : Prop :=
  forall k acc, coll !! k = Some acc -> (1 <= count acc)%Z.

(** At most one stored record per (country, postcode), for every country. *)
Definition unique_table (table : list PostcodeRow) : Prop :=
  forall c, unique_postcodes c table.

(** *** The committed state, stated *)

(** The rows of country [c] in [table] are those of the mapping [coll]:
    one row per collected postcode and none for another postcode, each at
    a point that [_compute_changes] takes for the centroid. *)
Definition stores (c : string) (coll : gmap string PointsCentroid)
    (table : list PostcodeRow) : Prop :=
  unique_postcodes c table /\
  (forall k, k ∈ stored_postcodes c table <-> is_Some (coll !! k)) /\
  (forall k x y, (k, x, y) ∈ select_postcodes c table ->
     exists acc, coll !! k = Some acc /\
       moved x y (centroid acc).1 (centroid acc).2 = false).

(** [update_postcodes] from a state of its stream loop on: the source rows
    left, the commit of the open collector, the loop over the countries
    left in [todo_countries]. *)
Definition pass_from {Match} (py_float : string -> option pyfloat)
    (get_matcher : string -> option (CountryPostcodeMatcher Match))
    (analyzer : AbstractAnalyzer) (project_dir : option (gmap string csvfile))
    (rows : list (string * string * Q * Q)) (st : DriverState Match)
  : Connection * list LogRecord * completion :=
  match stream_loop py_float get_matcher analyzer project_dir rows st with
  | (st, Raised e) => (conn st, log st, Raised e)
  | (st, Normal) =>
      match commit_open py_float analyzer project_dir st with
      | (conn', log', Raised e) => (conn', log', Raised e)
      | (conn', log', Normal) =>
          todo_loop py_float get_matcher analyzer project_dir
                    (elements (todo_countries st)) conn' log'
      end
  end.

(** What [add] is passed for a source row [(cc, pc, x, y)]. *)
Definition point (r : string * string * Q * Q) : string * Q * Q :=
  (r.1.1.2, r.1.2, r.2).

(** The collector [update_postcodes] has built when the source rows
    [rows] of country [c] are read. *)
Definition fed {Match} (get_matcher : string -> option (CountryPostcodeMatcher Match))
    (c : string) (rows : list (string * string * Q * Q)) : _PostcodeCollector Match :=
  add_all add (map point rows) (new c (get_matcher c)).

(** The three kinds of row a diff leaves for its country. *)
Definition row_after (coll : gmap string PointsCentroid) (c : string)
    (before : list PostcodeRow) (r : PostcodeRow) : Prop :=
  exists acc, coll !! postcode r = Some acc /\
    ((r ∈ before /\
      moved (geometry r).1 (geometry r).2 (centroid acc).1 (centroid acc).2 = false) \/
     (r = mkRow 2 c (postcode r) ((centroid acc).1, (centroid acc).2) /\
      exists x y, (postcode r, x, y) ∈ select_postcodes c before /\
        moved x y (centroid acc).1 (centroid acc).2 = true) \/
     (r = mkRow 1 c (postcode r) ((centroid acc).1, (centroid acc).2) /\
      postcode r ∉ stored_postcodes c before)).

End Vocabulary.

Export Vocabulary.

(** * Properties *)

(** ** Comparison of numbers *)

Lemma Qgt_bool_true a b : Qgt_bool a b = true <-> (b < a)%Q.
Proof.
  unfold Qgt_bool. rewrite negb_true_iff, <- not_true_iff_false, Qle_bool_iff.
  split; [apply Qnot_le_lt | apply Qlt_not_le].
Qed.

Lemma Qgt_bool_false a b : Qgt_bool a b = false <-> (a <= b)%Q.
Proof.
  unfold Qgt_bool. rewrite negb_false_iff. apply Qle_bool_iff.
Qed.

(** ** Version strings *)

Section VersionFacts.
Import Version.

Lemma string_of_uint_digits d : digits_only (NilEmpty.string_of_uint d) = true.
Proof. induction d; simpl; auto. Qed.

Lemma int_digits_string_of_uint d :
  int_digits (NilEmpty.string_of_uint d) true = Some d.
Proof. induction d; simpl; try rewrite IHd; reflexivity. Qed.

Lemma digit_not_space c f : digit c = Some f -> is_space c = false.
Proof.
  destruct c as [[] [] [] [] [] [] [] []]; simpl; intros H;
    try discriminate H; reflexivity.
Qed.

Lemma digit_not_sep c sep : digit sep = None -> is_Some (digit c) -> Ascii.eqb c sep = false.
Proof.
  intros Hsep [f Hf]. destruct (Ascii.eqb_spec c sep) as [->|]; [congruence | reflexivity].
Qed.

Lemma lstrip_digits s : digits_only s = true -> lstrip s = s.
Proof.
  destruct s as [|c r]; simpl; [reflexivity|].
  destruct (digit c) eqn:E; [|discriminate].
  intros _. now rewrite (digit_not_space _ _ E).
Qed.

Lemma rstrip_digits s : digits_only s = true -> rstrip s = s.
Proof.
  induction s as [|c r IH]; simpl; [reflexivity|].
  destruct (digit c) eqn:E; [|discriminate].
  intros H. rewrite (IH H), (digit_not_space _ _ E). now destruct r.
Qed.

Lemma strip_digits s : digits_only s = true -> strip s = s.
Proof. intros H. unfold strip. rewrite (lstrip_digits _ H). now apply rstrip_digits. Qed.

Lemma py_int_string_of_uint d :
  d <> Decimal.Nil -> py_int (NilEmpty.string_of_uint d) = Ok (Z.of_uint d).
Proof.
  intros Hd. unfold py_int.
  rewrite (strip_digits _ (string_of_uint_digits d)).
  destruct d; try congruence; simpl; now rewrite int_digits_string_of_uint.
Qed.

(** [str] of a non-negative [int] is the digit string of a decimal
    numeral that denotes it. *)
Lemma str_int_nonneg n :
  (0 <= n)%Z ->
  exists d, d <> Decimal.Nil /\ str_int n = NilEmpty.string_of_uint d /\ Z.of_uint d = n.
Proof.
  intros Hn. destruct n as [|p|p]; [| |lia].
  - exists (Decimal.D0 Decimal.Nil). repeat split; congruence.
  - exists (Pos.to_uint p). split; [apply DecimalPos.Unsigned.to_uint_nonnil|].
    split.
    + unfold str_int. simpl.
      pose proof (DecimalPos.Unsigned.to_uint_nonnil p) as Hnn.
      unfold NilZero.string_of_uint. now destruct (Pos.to_uint p).
    + unfold Z.of_uint. now rewrite DecimalPos.Unsigned.of_to.
Qed.

Lemma str_int_digits n : (0 <= n)%Z -> digits_only (str_int n) = true.
Proof.
  intros Hn. destruct (str_int_nonneg n Hn) as (d & _ & -> & _).
  apply string_of_uint_digits.
Qed.

Lemma py_int_str_int n : (0 <= n)%Z -> py_int (str_int n) = Ok n.
Proof.
  intros Hn. destruct (str_int_nonneg n Hn) as (d & Hd & -> & <-).
  now apply py_int_string_of_uint.
Qed.

Lemma digits_sep_free sep s :
  digit sep = None -> digits_only s = true -> sep_free sep s = true.
Proof.
  intros Hsep. induction s as [|c r IH]; simpl; [reflexivity|].
  destruct (digit c) eqn:E; [|discriminate].
  intros H. rewrite (digit_not_sep c sep Hsep) by eauto. simpl. auto.
Qed.

Lemma sep_free_append sep a b :
  sep_free sep (String.append a b) = sep_free sep a && sep_free sep b.
Proof.
  induction a as [|c r IH]; simpl; [reflexivity|].
  rewrite IH. now rewrite andb_assoc.
Qed.

Lemma split_sep_free sep s : sep_free sep s = true -> split sep s = [s].
Proof.
  induction s as [|c r IH]; simpl; [reflexivity|].
  intros [Hc Hr]%andb_true_iff. apply negb_true_iff in Hc.
  now rewrite Hc, (IH Hr).
Qed.

Lemma split_append sep a b :
  sep_free sep a = true ->
  split sep (String.append a (String sep b)) = a :: split sep b.
Proof.
  induction a as [|c r IH]; simpl.
  - intros _. now rewrite Ascii.eqb_refl.
  - intros [Hc Hr]%andb_true_iff. apply negb_true_iff in Hc.
    now rewrite Hc, (IH Hr).
Qed.

Lemma append_cons x r b : String.append (String x r) b = String x (String.append r b).
Proof. reflexivity. Qed.

Lemma append_nil_l b : String.append EmptyString b = b.
Proof. reflexivity. Qed.

Lemma append_assoc (a b c : string) :
  String.append (String.append a b) c = String.append a (String.append b c).
Proof.
  induction a as [|x r IH]; [reflexivity|].
  now rewrite !append_cons, IH.
Qed.

(** The string of a version with all four fields: "major.minor.patch-db". *)
Lemma str_full a b c d :
  __str__ (mkVersion a b c (Some d)) =
  String.append (str_int a)
    (String "." (String.append (str_int b)
       (String "." (String.append (str_int c) (String "-" (str_int d)))))).
Proof.
  unfold __str__; cbn [major minor patch_level db_patch_level].
  now rewrite !append_assoc, !append_cons, !append_nil_l.
Qed.

(** C10.  Version string round trip: for every [NominatimVersion] whose
    four fields [major], [minor], [patch_level] and [db_patch_level] are
    non-negative integers, [parse_version(str(v))] returns a version equal
    to [v]. *)
Theorem parse_version_str (v : NominatimVersion) (d : Z) :
  db_patch_level v = Some d ->
  (0 <= major v)%Z -> (0 <= minor v)%Z -> (0 <= patch_level v)%Z -> (0 <= d)%Z ->
  parse_version (__str__ v) = Ok v.
Proof.
  destruct v as [a b c dd]; simpl. intros -> Ha Hb Hc Hd.
  pose proof (str_int_digits a Ha) as Da. pose proof (str_int_digits b Hb) as Db.
  pose proof (str_int_digits c Hc) as Dc. pose proof (str_int_digits d Hd) as Dd.
  rewrite str_full. unfold parse_version.
  rewrite !split_append by (apply digits_sep_free; auto).
  rewrite split_sep_free.
  2:{ rewrite sep_free_append. simpl. rewrite !digits_sep_free; auto. }
  cbn [nth_error firstn app].
  rewrite split_append by (apply digits_sep_free; auto).
  rewrite split_sep_free by (apply digits_sep_free; auto).
  cbn [app ints]. rewrite !py_int_str_int by assumption. reflexivity.
Qed.

(** The round trip at the version of the source, 5.1.0-0. *)
Lemma parse_version_str_witness :
  let v := mkVersion 5 1 0 (Some 0%Z) in
  NOMINATIM_VERSION = Ok v /\ parse_version (__str__ v) = Ok v.
Proof.
  split; [reflexivity|].
  apply (parse_version_str (mkVersion 5 1 0 (Some 0%Z)) 0%Z); simpl;
    [reflexivity | lia | lia | lia | lia].
Defined.

(** Outside the precondition the round trip is lost: the minus sign of a
    negative patch level is read as one more separator, and a version
    without database patch level has too few fields for the constructor. *)
Example parse_version_negative :
  parse_version (__str__ (mkVersion 5 1 0 (Some (-1)%Z))) = Raise ValueError.
Proof. reflexivity. Qed.

Example parse_version_release_only :
  parse_version (__str__ (mkVersion 5 1 0 None)) = Raise TypeError.
Proof. reflexivity. Qed.

End VersionFacts.

(** ** The collector *)

Section CollectorFacts.
Import Postcodes.
Context {Match : Type}.
Implicit Types (self : _PostcodeCollector Match) (coll : gmap string PointsCentroid).

Lemma add_country self postcode x y : country (add self postcode x y) = country self.
Proof.
  unfold add. destruct (matcher self); [|reflexivity].
  destruct (normalization_cache self) as [[raw cached]|]; [destruct (_ =? _)%string|];
    reflexivity.
Qed.

Lemma add_matcher self postcode x y : matcher (add self postcode x y) = matcher self.
Proof.
  unfold add. destruct (matcher self) eqn:E; [|exact E].
  destruct (normalization_cache self) as [[raw cached]|]; [destruct (_ =? _)%string|];
    reflexivity.
Qed.

Lemma add_all_country rows : forall self,
  country (add_all add rows self) = country self.
Proof.
  unfold add_all. induction rows as [|[[p x] y] rows IH]; intros self; simpl; [reflexivity|].
  rewrite IH. apply add_country.
Qed.

(** With a coherent cache, [add] collects what the uncached variant
    collects, and leaves a coherent cache. *)
Lemma add_uncached_step self self' postcode x y :
  cache_coherent self ->
  country self = country self' -> matcher self = matcher self' ->
  collected self = collected self' ->
  let c := add self postcode x y in
  let c' := add_uncached self' postcode x y in
  cache_coherent c /\ country c = country c' /\ matcher c = matcher c' /\
  collected c = collected c'.
Proof.
  intros Hcoh Hco Hma Hcl. unfold add, add_uncached, cache_coherent in *.
  rewrite <- Hma, <- Hcl, <- Hco.
  destruct (matcher self) as [m|] eqn:Em; [|now rewrite Em].
  destruct (normalization_cache self) as [[raw cached]|] eqn:Ec.
  - destruct (String.eqb_spec raw postcode) as [->|Hne]; cbn.
    + rewrite <- Hcoh. auto.
    + auto.
  - cbn. auto.
Qed.

Lemma add_all_uncached rows : forall self self',
  cache_coherent self ->
  country self = country self' -> matcher self = matcher self' ->
  collected self = collected self' ->
  collected (add_all add rows self) = collected (add_all add_uncached rows self').
Proof.
  unfold add_all. induction rows as [|[[p x] y] rows IH]; intros self self' Hcoh Hco Hma Hcl;
    simpl; [exact Hcl|].
  destruct (add_uncached_step self self' p x y Hcoh Hco Hma Hcl) as (H1 & H2 & H3 & H4).
  now apply IH.
Qed.

(** C9.  The one-slot normalization cache is a pure optimization: for
    every sequence of [add] calls on a collector whose cache is coherent
    (as it is from creation on), the collected mapping equals the one
    produced by the variant that runs [match] and [normalize] on every call
    and never reads or writes the cache.  The matcher's [match] and
    [normalize] are functions, hence pure. *)
Theorem normalization_cache_transparent self rows :
  cache_coherent self ->
  collected (add_all add rows self) = collected (add_all add_uncached rows self).
Proof. intros Hcoh. now apply add_all_uncached. Qed.

Lemma new_cache_coherent c (m : option (CountryPostcodeMatcher Match)) :
  cache_coherent (new c m).
Proof. unfold cache_coherent, new. simpl. now destruct m. Qed.

Lemma add_cache_coherent self postcode x y :
  cache_coherent self -> cache_coherent (add self postcode x y).
Proof.
  intros Hcoh. now destruct (add_uncached_step self self postcode x y Hcoh eq_refl eq_refl eq_refl).
Qed.

(** C1, as amended.  On a collector without matcher, [add] does nothing:
    the postcode is dropped, the mapping and the cache stay as they were. *)
Theorem add_without_matcher self postcode x y :
  matcher self = None -> add self postcode x y = self.
Proof. intros H. unfold add. now rewrite H. Qed.

End CollectorFacts.

(** ** The diff of [_compute_changes] *)

Section ChangesFacts.
Import Postcodes.
Implicit Types (coll : gmap string PointsCentroid).

(** One stored row: the key leaves the mapping, and the row goes to
    [to_update], to [to_delete] or to neither. *)
Lemma changes_step_closed coll upd del row :
  changes_step (coll, upd, del) row =
  (delete (key row) coll,
   upd ++ option_list (update_of coll row),
   del ++ (if absent coll (key row) then [key row] else [])).
Proof.
  destruct row as [[k x] y]. unfold changes_step, update_of, absent, key. simpl.
  destruct (coll !! k) as [acc|] eqn:E.
  - destruct (moved _ _ _ _); simpl; now rewrite ?app_nil_r.
  - simpl. now rewrite app_nil_r, (delete_id coll k E).
Qed.

Lemma update_of_agree coll coll0 row :
  coll !! key row = coll0 !! key row -> update_of coll row = update_of coll0 row.
Proof. destruct row as [[k x] y]. unfold update_of, key. simpl. now intros ->. Qed.

Lemma absent_agree coll coll0 k :
  coll !! k = coll0 !! k -> absent coll k = absent coll0 k.
Proof. unfold absent. now intros ->. Qed.

(** With distinct stored postcodes the loop reads every row against the
    mapping it started from. *)
Lemma changes_fold_closed rows : forall coll coll0 upd del,
  NoDup (map key rows) ->
  (forall k, k ∈ map key rows -> coll !! k = coll0 !! k) ->
  fold_left changes_step rows (coll, upd, del) =
  (fold_left (fun m r => delete (key r) m) rows coll,
   upd ++ omap (update_of coll0) rows,
   del ++ List.filter (absent coll0) (map key rows)).
Proof.
  induction rows as [|row rows IH]; intros coll coll0 upd del Hnd Hag.
  - simpl. now rewrite !app_nil_r.
  - rewrite map_cons in Hnd. apply NoDup_cons in Hnd as [Hnotin Hnd].
    assert (Hk : coll !! key row = coll0 !! key row)
      by (apply Hag; rewrite map_cons; apply list_elem_of_here).
    cbn [fold_left]. rewrite changes_step_closed.
    rewrite (IH _ coll0); [|exact Hnd|].
    + rewrite (update_of_agree _ _ _ Hk), (absent_agree _ _ _ Hk).
      destruct (update_of coll0 row) eqn:Eu, (absent coll0 (key row)) eqn:Ea;
        simpl; rewrite ?Eu, ?Ea, <- ?app_assoc; reflexivity.
    + intros k' Hk'. rewrite lookup_delete_ne.
      * apply Hag. rewrite map_cons. now apply list_elem_of_further.
      * intros Heq. apply Hnotin. now rewrite Heq.
Qed.

(** What is left of the mapping after the loop: the keys not stored. *)
Lemma lookup_fold_delete rows : forall coll k,
  fold_left (fun m r => delete (key r) m) rows coll !! k =
  if decide (k ∈ map key rows) then None else coll !! k.
Proof.
  induction rows as [|row rows IH]; intros coll k; cbn [fold_left map].
  - case_decide as H; [now apply elem_of_nil in H | reflexivity].
  - rewrite IH.
    destruct (decide (k ∈ map key rows)) as [Hin|Hnin];
      case_decide as H; rewrite elem_of_cons in H; try tauto.
    + destruct H as [->|H]; [apply lookup_delete_eq | tauto].
    + apply lookup_delete_ne. intros Heq. apply H. now left.
Qed.

End ChangesFacts.

(** ** The three buckets *)

Section DiffFacts.
Import Postcodes.
Context {Match : Type}.
Implicit Types (self : _PostcodeCollector Match) (coll : gmap string PointsCentroid).

Lemma map_fmap {A B} (f : A -> B) (l : list A) : map f l = f <$> l.
Proof. reflexivity. Qed.

Lemma elem_of_List_filter {A} (p : A -> bool) (l : list A) x :
  x ∈ List.filter p l <-> x ∈ l /\ p x = true.
Proof. rewrite !list_elem_of_In. apply filter_In. Qed.

Lemma List_filter_sublist {A} (p : A -> bool) (l : list A) :
  List.filter p l `sublist_of` l.
Proof.
  induction l as [|a l IH]; simpl; [constructor|].
  destruct (p a); now constructor.
Qed.

Lemma compute_changes_closed self conn :
  unique_postcodes (country self) (location_postcode conn) ->
  let rows := select_postcodes (country self) (location_postcode conn) in
  _compute_changes self conn =
  (mkCollector (country self) (matcher self) ∅ (normalization_cache self),
   (map add_of (map_to_list (remaining (collected self) rows)),
    List.filter (absent (collected self)) (map key rows),
    omap (update_of (collected self)) rows)).
Proof.
  intros Hnd rows. unfold _compute_changes. fold rows.
  rewrite (changes_fold_closed rows _ (collected self)); [|exact Hnd|reflexivity].
  simpl. f_equal. f_equal. f_equal. apply map_ext. now intros [k v].
Qed.

Lemma add_keys_remaining coll rows :
  add_keys (map add_of (map_to_list (remaining coll rows))) =
  (map_to_list (remaining coll rows)).*1.
Proof. unfold add_keys. rewrite map_map. reflexivity. Qed.

Lemma elem_of_add_keys coll rows k :
  k ∈ add_keys (map add_of (map_to_list (remaining coll rows))) <->
  is_Some (coll !! k) /\ k ∉ map key rows.
Proof.
  rewrite add_keys_remaining.
  rewrite list_elem_of_fmap. split.
  - intros ([k' v] & -> & Hin). apply elem_of_map_to_list in Hin.
    unfold remaining in Hin. rewrite lookup_fold_delete in Hin. simpl.
    case_decide; [discriminate|]. eauto.
  - intros [[v Hv] Hnin]. exists (k, v). split; [reflexivity|].
    apply elem_of_map_to_list. unfold remaining. rewrite lookup_fold_delete.
    now rewrite decide_False.
Qed.

Lemma elem_of_to_delete coll (rows : list (string * Q * Q)) k :
  k ∈ List.filter (absent coll) (map key rows) <->
  k ∈ map key rows /\ coll !! k = None.
Proof.
  rewrite elem_of_List_filter. unfold absent.
  destruct (coll !! k); intuition congruence.
Qed.

Lemma update_of_Some coll row u :
  update_of coll row = Some u <->
  exists acc, coll !! key row = Some acc /\
    moved row.1.2 row.2 (centroid acc).1 (centroid acc).2 = true /\
    u = ((centroid acc).1, (centroid acc).2, key row).
Proof.
  destruct row as [[k x] y]. unfold update_of, key. simpl.
  destruct (coll !! k) as [acc|]; simpl.
  - destruct (moved _ _ _ _) eqn:E; split.
    + intros [= <-]. eauto.
    + intros (acc' & [= <-] & _ & ->). reflexivity.
    + discriminate.
    + intros (acc' & [= <-] & ? & _). congruence.
  - split; [discriminate|]. now intros (? & ? & _).
Qed.

Lemma update_of_None coll row :
  update_of coll row = None <->
  forall acc, coll !! key row = Some acc ->
    moved row.1.2 row.2 (centroid acc).1 (centroid acc).2 = false.
Proof.
  destruct row as [[k x] y]. unfold update_of, key. simpl.
  destruct (coll !! k) as [acc|]; simpl.
  - destruct (moved _ _ _ _) eqn:E; split; try discriminate; try reflexivity.
    + intros H. specialize (H acc eq_refl). congruence.
    + intros _ acc' [= <-]. exact E.
  - split; [discriminate | reflexivity].
Qed.

Lemma elem_of_update_keys coll (rows : list (string * Q * Q)) k :
  k ∈ update_keys (omap (update_of coll) rows) <->
  exists x y acc, (k, x, y) ∈ rows /\ coll !! k = Some acc /\
    moved x y (centroid acc).1 (centroid acc).2 = true.
Proof.
  unfold update_keys. rewrite map_fmap, list_elem_of_fmap. split.
  - intros (u & -> & Hu). apply list_elem_of_omap in Hu as ([[k x] y] & Hin & Hu).
    apply update_of_Some in Hu as (acc & Hacc & Hm & ->). simpl in *.
    exists x, y, acc. auto.
  - intros (x & y & acc & Hin & Hacc & Hm).
    exists ((centroid acc).1, (centroid acc).2, k). split; [reflexivity|].
    apply list_elem_of_omap. exists (k, x, y). split; [exact Hin|].
    apply update_of_Some. exists acc. auto.
Qed.

Lemma update_keys_sublist coll (rows : list (string * Q * Q)) :
  update_keys (omap (update_of coll) rows) `sublist_of` map key rows.
Proof.
  induction rows as [|row rows IH]; simpl; [constructor|].
  destruct (update_of coll row) as [u|] eqn:E.
  - apply update_of_Some in E as (acc & _ & _ & ->). simpl. now constructor.
  - now constructor.
Qed.

Lemma NoDup_key_inj (rows : list (string * Q * Q)) r1 r2 :
  NoDup (map key rows) -> r1 ∈ rows -> r2 ∈ rows -> key r1 = key r2 -> r1 = r2.
Proof.
  induction rows as [|row rows IH]; [now intros _ ?%elem_of_nil|].
  rewrite map_cons. intros [Hnin Hnd]%NoDup_cons [->|H1]%elem_of_cons [->|H2]%elem_of_cons Hk.
  - reflexivity.
  - exfalso. apply Hnin. rewrite Hk, map_fmap. now apply list_elem_of_fmap_2.
  - exfalso. apply Hnin. rewrite <- Hk, map_fmap. now apply list_elem_of_fmap_2.
  - now apply IH.
Qed.

(** C3.  With at most one stored record per (country, postcode), the diff
    puts every postcode in at most one of the buckets to-add, to-delete and
    to-update (their keys, taken together, have no duplicate), and every
    postcode of the country, stored or collected, is in exactly one of
    to-add, to-delete, to-update and unchanged. *)
Theorem changes_partition self conn self' to_add to_delete to_update :
  unique_postcodes (country self) (location_postcode conn) ->
  _compute_changes self conn = (self', (to_add, to_delete, to_update)) ->
  NoDup (add_keys to_add ++ to_delete ++ update_keys to_update) /\
  forall k,
    k ∈ stored_postcodes (country self) (location_postcode conn) \/
      is_Some (collected self !! k) ->
    exactly_one (k ∈ add_keys to_add) (k ∈ to_delete) (k ∈ update_keys to_update)
      (unchanged (collected self)
         (select_postcodes (country self) (location_postcode conn)) k).
Proof.
  intros Hnd. rewrite (compute_changes_closed self conn Hnd). cbv zeta.
  unfold unique_postcodes, stored_postcodes in *.
  set (rows := select_postcodes (country self) (location_postcode conn)) in *.
  set (coll := collected self).
  intros [= _ <- <- <-]. split.
  - rewrite !NoDup_app. repeat split.
    + rewrite add_keys_remaining. apply NoDup_fst_map_to_list.
    + intros k [_ Hnin]%elem_of_add_keys [Hk|Hk]%elem_of_app.
      * apply elem_of_to_delete in Hk as [Hk _]. contradiction.
      * apply Hnin. eapply elem_of_sublist; [exact Hk|apply update_keys_sublist].
    + eapply sublist_NoDup; [exact Hnd | apply List_filter_sublist].
    + intros k [_ Hnone]%elem_of_to_delete (x & y & acc & _ & Hs & _)%elem_of_update_keys.
      congruence.
    + eapply sublist_NoDup; [exact Hnd | apply update_keys_sublist].
  - intros k Hk. unfold exactly_one, unchanged.
    rewrite elem_of_add_keys, elem_of_to_delete, elem_of_update_keys.
    repeat split.
    + destruct (decide (k ∈ map key rows)) as [Hin|Hnin].
      * destruct (coll !! k) as [acc|] eqn:Hc; [|tauto].
        rewrite map_fmap in Hin. apply list_elem_of_fmap in Hin as ([[k' x] y] & -> & Hin).
        unfold key; simpl.
        destruct (moved x y (centroid acc).1 (centroid acc).2) eqn:Hm.
        -- right. right. left. exists x, y, acc. auto.
        -- right. right. right. exists x, y, acc. auto.
      * left. split; [|exact Hnin]. destruct Hk as [Hk|Hk]; [contradiction|exact Hk].
    + intros [[_ Hnin] [Hin _]]. contradiction.
    + intros [[_ Hnin] (x & y & acc & Hin & _)]. apply Hnin.
      rewrite map_fmap. apply list_elem_of_fmap. now exists (k, x, y).
    + intros [[_ Hnin] (x & y & acc & Hin & _)]. apply Hnin.
      rewrite map_fmap. apply list_elem_of_fmap. now exists (k, x, y).
    + intros [[_ Hnone] (x & y & acc & _ & Hs & _)]. congruence.
    + intros [[_ Hnone] (x & y & acc & _ & Hs & _)]. congruence.
    + intros [(x & y & acc & Hin & Hs & Hm) (x' & y' & acc' & Hin' & Hs' & Hm')].
      assert (E : (k, x, y) = (k, x', y')) by (eapply NoDup_key_inj; eauto).
      injection E as -> ->. congruence.
Qed.
End DiffFacts.

(** ** The statements of [commit] on the table *)

Section TableFacts.
Import Postcodes.

Lemma select_postcodes_eq c T :
  select_postcodes c T = map row_tuple (List.filter (of_country c) T).
Proof. reflexivity. Qed.

Lemma insert_postcodes_eq c l T : insert_postcodes c l T = T ++ map (new_row c) l.
Proof.
  unfold insert_postcodes. f_equal. apply map_ext. now intros [[k x] y].
Qed.

Lemma update_postcodes_rows_eq c l : forall T,
  update_postcodes_rows c l T = map (apply_updates c l) T.
Proof.
  unfold update_postcodes_rows, apply_updates.
  induction l as [|u l IH]; intros T; simpl.
  - now rewrite map_id.
  - rewrite IH. unfold update_postcode. destruct u as [[x y] pc].
    rewrite map_map. reflexivity.
Qed.

Lemma apply_updates_country c l : forall r,
  country_code (apply_updates c l r) = country_code r.
Proof.
  unfold apply_updates. induction l as [|u l IH]; intros r; simpl; [reflexivity|].
  rewrite IH. unfold update_row. now destruct (_ && _).
Qed.

Lemma apply_updates_postcode c l : forall r,
  postcode (apply_updates c l r) = postcode r.
Proof.
  unfold apply_updates. induction l as [|u l IH]; intros r; simpl; [reflexivity|].
  rewrite IH. unfold update_row. now destruct (_ && _).
Qed.

Lemma filter_map_commute {A} (p : A -> bool) (f : A -> A) (l : list A) :
  (forall a, p (f a) = p a) ->
  List.filter p (map f l) = map f (List.filter p l).
Proof.
  intros Hp. induction l as [|a l IH]; simpl; [reflexivity|].
  rewrite Hp. destruct (p a); simpl; now rewrite IH.
Qed.

Lemma filter_filter {A} (p q : A -> bool) (l : list A) :
  List.filter p (List.filter q l) = List.filter (fun a => q a && p a) l.
Proof.
  induction l as [|a l IH]; simpl; [reflexivity|].
  destruct (q a); simpl; [destruct (p a)|]; now rewrite IH.
Qed.

Lemma filter_all {A} (p : A -> bool) (l : list A) :
  (forall a, a ∈ l -> p a = true) -> List.filter p l = l.
Proof.
  induction l as [|a l IH]; simpl; [reflexivity|]. intros H.
  rewrite (H a) by apply list_elem_of_here. f_equal. apply IH.
  intros b Hb. apply H. now apply list_elem_of_further.
Qed.

(** The rows of country [c] after insert, delete and update. *)
Lemma select_after_changes c a d u T :
  List.filter (of_country c)
    (update_postcodes_rows c u (delete_postcodes c d (insert_postcodes c a T))) =
  map (apply_updates c u)
    (List.filter (kept d) (List.filter (of_country c) T) ++
     List.filter (kept d) (map (new_row c) a)).
Proof.
  rewrite update_postcodes_rows_eq, insert_postcodes_eq.
  rewrite filter_map_commute.
  2:{ intros r. unfold of_country. now rewrite apply_updates_country. }
  f_equal. unfold delete_postcodes. rewrite filter_filter, List.filter_app. 
  f_equal.
  - rewrite filter_filter. apply List.filter_ext. intros r. unfold of_country, kept.
    destruct (country_code r =? c)%string; simpl;
      now rewrite ?andb_true_r, ?andb_false_r.
  - rewrite <- (filter_all (of_country c) (map (new_row c) a)) at 2.
    + rewrite filter_filter. apply List.filter_ext. intros r. unfold of_country, kept.
      destruct (country_code r =? c)%string; simpl;
        now rewrite ?andb_true_r, ?andb_false_r.
    + intros r [x [-> _]]%list_elem_of_fmap. unfold of_country, new_row; simpl.
      apply String.eqb_refl.
Qed.


Lemma delete_postcodes_nil c T : delete_postcodes c [] T = T.
Proof.
  unfold delete_postcodes. apply filter_all. intros r _. simpl.
  now rewrite andb_false_r.
Qed.

(** The table after [commit]'s statements, whether or not a list is empty. *)
Lemma execute_changes_table c a d u conn :
  location_postcode (execute_changes c (a, d, u) conn) =
  update_postcodes_rows c u
    (delete_postcodes c d (insert_postcodes c a (location_postcode conn))).
Proof.
  unfold execute_changes.
  destruct a as [|a0 a], d as [|d0 d], u as [|u0 u]; cbn [nonempty location_postcode];
    rewrite ?delete_postcodes_nil; unfold insert_postcodes; cbn [map];
    rewrite ?app_nil_r; reflexivity.
Qed.

Lemma moved_same x y : moved x y x y = false.
Proof.
  unfold moved. apply orb_false_iff. split; apply Qgt_bool_false;
    unfold tolerance; ring_simplify; discriminate.
Qed.

Lemma update_row_hit c r u :
  country_code r = c -> postcode r = u.2 ->
  update_row c r u = mkRow 2 c (postcode r) (u.1.1, u.1.2).
Proof. intros Hc Hp. unfold update_row. now rewrite Hc, Hp, !String.eqb_refl. Qed.

Lemma update_row_miss c r u : postcode r <> u.2 -> update_row c r u = r.
Proof.
  intros Hp. unfold update_row. apply String.eqb_neq in Hp. rewrite Hp.
  now rewrite andb_false_r.
Qed.

(** An update list made of recomputed centroids either leaves a row's
    point alone or sets it to the centroid collected for its postcode. *)
Lemma apply_updates_geometry (coll : gmap string PointsCentroid) c l :
  (forall u, u ∈ l -> exists acc, coll !! u.2 = Some acc /\
      u = ((centroid acc).1, (centroid acc).2, u.2)) ->
  forall r, country_code r = c ->
    (geometry (apply_updates c l r) = geometry r /\ postcode r ∉ map snd l) \/
    (exists acc, coll !! postcode r = Some acc /\
       geometry (apply_updates c l r) = ((centroid acc).1, (centroid acc).2)).
Proof.
  unfold apply_updates. induction l as [|u l IH]; intros Hl r Hr.
  - left. split; [reflexivity | apply not_elem_of_nil].
  - cbn [fold_left].
    assert (Hl' : forall u', u' ∈ l -> exists acc, coll !! u'.2 = Some acc /\
              u' = ((centroid acc).1, (centroid acc).2, u'.2))
      by (intros u' Hu'; apply Hl; now apply list_elem_of_further).
    destruct (Hl u (list_elem_of_here _ _)) as (acc & Hacc & Hu).
    destruct (decide (postcode r = u.2)) as [E|E].
    + right. exists acc. split; [now rewrite E|].
      rewrite (update_row_hit c r u Hr E).
      destruct (IH Hl' (mkRow 2 c (postcode r) (u.1.1, u.1.2)) eq_refl)
        as [[Hg _]|(acc' & Hacc' & Hg)]; rewrite Hg.
      * simpl. now rewrite Hu.
      * simpl in Hacc'. rewrite E in Hacc'. congruence.
    + rewrite (update_row_miss c r u E).
      destruct (IH Hl' r Hr) as [[Hg Hn]|H]; [left|now right].
      split; [exact Hg|]. cbn [map]. rewrite not_elem_of_cons. split; [exact E|exact Hn].
Qed.
End TableFacts.

(** ** Running the diff a second time *)

Section Idempotence.
Import Postcodes.
Context {Match : Type}.
Implicit Types (self : _PostcodeCollector Match) (coll : gmap string PointsCentroid).

Lemma filter_none {A} (p : A -> bool) (l : list A) :
  (forall a, a ∈ l -> p a = false) -> List.filter p l = [].
Proof.
  induction l as [|a l IH]; simpl; [reflexivity|]. intros H.
  rewrite (H a) by apply list_elem_of_here. apply IH.
  intros b Hb. apply H. now apply list_elem_of_further.
Qed.

Lemma omap_none {A B} (f : A -> option B) (l : list A) :
  (forall a, a ∈ l -> f a = None) -> omap f l = [].
Proof.
  induction l as [|a l IH]; simpl; [reflexivity|]. intros H.
  rewrite (H a) by apply list_elem_of_here. apply IH.
  intros b Hb. apply H. now apply list_elem_of_further.
Qed.

Lemma kept_true d r : kept d r = true <-> postcode r ∉ d.
Proof.
  unfold kept. rewrite negb_true_iff, <- not_true_iff_false, existsb_exists.
  split; intros H Hin; apply H.
  - exists (postcode r). split; [now apply list_elem_of_In | apply String.eqb_refl].
  - destruct Hin as (k & Hk & ->%String.eqb_eq). now apply list_elem_of_In.
Qed.

Lemma key_row_tuple (S : list PostcodeRow) : map key (map row_tuple S) = map postcode S.
Proof. rewrite map_map. reflexivity. Qed.

(** The rows of the country after the statements of a diff. *)
Lemma rows_after_changes coll c T :
  let rows := select_postcodes c T in
  let a := map add_of (map_to_list (remaining coll rows)) in
  let d := List.filter (absent coll) (map key rows) in
  let u := omap (update_of coll) rows in
  List.filter (of_country c)
    (update_postcodes_rows c u (delete_postcodes c d (insert_postcodes c a T))) =
  map (apply_updates c u)
    (List.filter (kept d) (List.filter (of_country c) T) ++ map (new_row c) a).
Proof.
  intros rows a d u. rewrite select_after_changes. do 2 f_equal.
  apply filter_all. intros r (t & -> & Hin)%list_elem_of_fmap.
  apply kept_true. unfold new_row; simpl.
  intros [Hk _]%elem_of_to_delete.
  assert (Ha : key t ∈ add_keys a)
    by (unfold add_keys; rewrite map_fmap; now apply list_elem_of_fmap_2).
  apply elem_of_add_keys in Ha as [_ Hn]. apply Hn. exact Hk.
Qed.


Lemma settled_row coll r acc :
  coll !! postcode r = Some acc ->
  moved (geometry r).1 (geometry r).2 (centroid acc).1 (centroid acc).2 = false ->
  update_of coll (row_tuple r) = None /\ absent coll (key (row_tuple r)) = false.
Proof.
  intros Hacc Hm. split.
  - apply update_of_None. intros acc' Hacc'. unfold row_tuple, key in *. simpl in *.
    assert (acc' = acc) as -> by congruence. exact Hm.
  - unfold absent, row_tuple, key. simpl. now rewrite Hacc.
Qed.

(** Re-running the diff after its own statements finds nothing to do. *)
Lemma changes_after_changes coll c T :
  NoDup (map key (select_postcodes c T)) ->
  let rows := select_postcodes c T in
  let a := map add_of (map_to_list (remaining coll rows)) in
  let d := List.filter (absent coll) (map key rows) in
  let u := omap (update_of coll) rows in
  let rows1 :=
    select_postcodes c
      (update_postcodes_rows c u (delete_postcodes c d (insert_postcodes c a T))) in
  NoDup (map key rows1) /\
  (forall row, row ∈ rows1 -> update_of coll row = None /\ absent coll (key row) = false) /\
  remaining coll rows1 = ∅.
Proof.
  intros Hnd rows a d u rows1.
  set (S := List.filter (of_country c) T).
  assert (Hrows : rows = map row_tuple S) by reflexivity.
  assert (Hkeys : map key rows = map postcode S) by (rewrite Hrows; apply key_row_tuple).
  assert (Hrows1 : rows1 = map row_tuple
            (map (apply_updates c u) (List.filter (kept d) S ++ map (new_row c) a))).
  { unfold rows1. rewrite select_postcodes_eq. f_equal. apply rows_after_changes. }
  assert (Hkeys1 : map key rows1 =
            map postcode (List.filter (kept d) S) ++ add_keys a).
  { rewrite Hrows1, key_row_tuple, map_map, map_app. f_equal.
    - apply map_ext. intros r. apply apply_updates_postcode.
    - rewrite map_map. unfold add_keys. apply map_ext. intros r.
      apply apply_updates_postcode. }
  assert (Hgood : forall u', u' ∈ u -> exists acc, coll !! u'.2 = Some acc /\
            u' = ((centroid acc).1, (centroid acc).2, u'.2)).
  { intros u' (row & _ & Hu)%list_elem_of_omap.
    apply update_of_Some in Hu as (acc & Hacc & _ & ->). simpl. eauto. }
  assert (Hcountry : forall r, r ∈ S -> country_code r = c).
  { intros r [_ Hr]%elem_of_List_filter. now apply String.eqb_eq in Hr. }
  assert (Hkept : forall r, r ∈ List.filter (kept d) S ->
            r ∈ S /\ is_Some (coll !! postcode r)).
  { intros r [Hr Hk]%elem_of_List_filter. split; [exact Hr|].
    apply kept_true in Hk. destruct (coll !! postcode r) eqn:E; [eauto|].
    exfalso. apply Hk. apply elem_of_to_delete. split; [|exact E].
    rewrite Hkeys, map_fmap. now apply list_elem_of_fmap_2. }
  split; [|split].
  - rewrite Hkeys1. apply NoDup_app. repeat split.
    + apply (sublist_NoDup _ (map postcode S)); [rewrite <- Hkeys; exact Hnd|].
      rewrite !map_fmap. apply fmap_sublist, List_filter_sublist.
    + intros k Hk [_ Hn]%elem_of_add_keys. apply Hn. rewrite Hkeys.
      rewrite map_fmap in Hk. apply list_elem_of_fmap in Hk as (r & -> & Hr).
      rewrite map_fmap. apply list_elem_of_fmap_2. now apply Hkept.
    + unfold a. rewrite add_keys_remaining. apply NoDup_fst_map_to_list.
  - intros row Hrow. rewrite Hrows1, !map_fmap in Hrow.
    apply list_elem_of_fmap in Hrow as (r1 & -> & Hr1).
    apply list_elem_of_fmap in Hr1 as (r0 & -> & Hr0).
    assert (H0 : country_code r0 = c /\ exists acc, coll !! postcode r0 = Some acc /\
              (geometry r0 = ((centroid acc).1, (centroid acc).2) \/
               (postcode r0 ∉ map snd u ->
                moved (geometry r0).1 (geometry r0).2 (centroid acc).1 (centroid acc).2 = false))).
    { apply elem_of_app in Hr0 as [Hr0|Hr0].
      - apply Hkept in Hr0 as [Hr0 [acc Hacc]]. split; [now apply Hcountry|].
        exists acc. split; [exact Hacc|]. right. intros Hnu.
        destruct (update_of coll (row_tuple r0)) as [u'|] eqn:Eu.
        + exfalso. apply Hnu. rewrite map_fmap. apply list_elem_of_fmap.
          exists u'. split.
          * apply update_of_Some in Eu as (? & _ & _ & ->). reflexivity.
          * apply list_elem_of_omap. exists (row_tuple r0). split; [|exact Eu].
            rewrite Hrows, map_fmap. now apply list_elem_of_fmap_2.
        + apply (proj1 (update_of_None _ _) Eu acc). exact Hacc.
      - rewrite map_fmap in Hr0. apply list_elem_of_fmap in Hr0 as (t & -> & Ht).
        unfold a in Ht. rewrite map_fmap in Ht.
        apply list_elem_of_fmap in Ht as ([k acc] & -> & Hin).
        apply elem_of_map_to_list in Hin. unfold remaining in Hin.
        rewrite lookup_fold_delete in Hin. case_decide; [discriminate|].
        split; [reflexivity|]. exists acc. split; [exact Hin|]. now left. }
    destruct H0 as (Hc & acc & Hacc & Hgeo).
    pose proof (apply_updates_postcode c u r0) as Hp.
    destruct (apply_updates_geometry coll c u Hgood r0 Hc) as [[Hg Hnu]|(acc' & Hacc' & Hg)].
    + apply (settled_row coll _ acc); [now rewrite Hp|]. rewrite Hg.
      destruct Hgeo as [Hgeo|Hgeo].
      * rewrite Hgeo. apply moved_same.
      * exact (Hgeo Hnu).
    + apply (settled_row coll _ acc); [now rewrite Hp|]. rewrite Hg.
      assert (acc' = acc) as -> by congruence. apply moved_same.
  - apply map_eq. intros k. unfold remaining. rewrite lookup_fold_delete, lookup_empty.
    case_decide as Hk; [reflexivity|].
    destruct (coll !! k) as [acc|] eqn:E; [|reflexivity]. exfalso. apply Hk.
    rewrite Hkeys1. apply elem_of_app.
    destruct (decide (k ∈ map key rows)) as [Hin|Hnin].
    + left. rewrite Hkeys, map_fmap in Hin. apply list_elem_of_fmap in Hin as (r & -> & Hr).
      rewrite map_fmap. apply list_elem_of_fmap_2. apply elem_of_List_filter.
      split; [exact Hr|]. apply kept_true. intros [_ Hn]%elem_of_to_delete. congruence.
    + right. apply elem_of_add_keys. eauto.
Qed.
End Idempotence.


(** ** The external merge *)

Section ExternalFacts.
Import Postcodes.
Context {Match : Type} (py_float : string -> option pyfloat).
Implicit Types (self : _PostcodeCollector Match) (coll : gmap string PointsCentroid).

Lemma external_rows_log analyzer rows : forall self log,
  external_rows py_float analyzer rows self log =
  let r := external_rows py_float analyzer rows self [] in
  (r.1.1, log ++ r.1.2, r.2).
Proof.
  induction rows as [|row rows IH]; intros self log; cbn [external_rows].
  - simpl. now rewrite app_nil_r.
  - destruct (row !! "postcode") as [pc|]; [|reflexivity];
      destruct (row !! "lat") as [lat|]; try reflexivity;
      destruct (row !! "lon") as [lon|]; try reflexivity.
    destruct (normalize_value analyzer pc) as [postcode|e];
      [|simpl; now rewrite app_nil_r].
    destruct (collected self !! _); [apply IH|].
    destruct (_to_float py_float lon 180) as [x|[]].
    + destruct (_to_float py_float lat 90) as [y|[]];
        try (simpl; now rewrite app_nil_r).
      * apply IH.
      * rewrite IH. rewrite (IH _ ([] ++ _)). simpl. now rewrite <- app_assoc.
    + rewrite IH. rewrite (IH _ ([] ++ _)). simpl. now rewrite <- app_assoc.
    + simpl. now rewrite app_nil_r.
    + simpl. now rewrite app_nil_r.
    + simpl. now rewrite app_nil_r.
Qed.
Lemma to_float_ok s max_value v :
  _to_float py_float (Some s) max_value = Ok v <-> valid_coordinate py_float s max_value v.
Proof.
  unfold _to_float, valid_coordinate.
  destruct (py_float s) as [[q| |]|]; try (split; [discriminate | now intros [? _]]).
  destruct (Qle_bool q (- max_value)) eqn:E1; simpl.
  - split; [discriminate|]. intros ([= ->] & H & _).
    apply Qle_bool_iff in E1. now apply Qlt_not_le in H.
  - destruct (Qle_bool max_value q) eqn:E2.
    + split; [discriminate|]. intros ([= ->] & _ & H).
      apply Qle_bool_iff in E2. now apply Qlt_not_le in H.
    + split.
      * intros [= ->]. split; [reflexivity|].
        split; apply Qnot_le_lt; intros H%Qle_bool_iff; congruence.
      * now intros ([= ->] & _).
Qed.

Lemma to_float_str s max_value :
  (exists v, _to_float py_float (Some s) max_value = Ok v) \/
  _to_float py_float (Some s) max_value = Raise ValueError.
Proof.
  unfold _to_float. destruct (py_float s) as [[q| |]|]; auto.
  destruct (_ || _); eauto.
Qed.


(** A row with a fresh postcode and valid coordinates is folded in. *)
Lemma external_row_accepted analyzer row rest self log raw lat lon x y :
  row !! "postcode" = Some (Some raw) ->
  row !! "lat" = Some (Some lat) -> row !! "lon" = Some (Some lon) ->
  collected self !! normalize_postcode analyzer raw = None ->
  valid_coordinate py_float lon 180 x -> valid_coordinate py_float lat 90 y ->
  external_rows py_float analyzer (row :: rest) self log =
  external_rows py_float analyzer rest
    (with_collected self
       (collected_iadd (collected self) (normalize_postcode analyzer raw) (x, y)))
    log.
Proof.
  intros Hp Hlat Hlon Hfresh Hx%to_float_ok Hy%to_float_ok.
  cbn [external_rows]. rewrite Hp, Hlat, Hlon. cbn [normalize_value].
  now rewrite Hfresh, Hx, Hy.
Qed.

(** A row with a fresh postcode and a coordinate that does not parse or
    is out of range is skipped with a warning. *)
Lemma external_row_rejected analyzer row rest self log raw lat lon :
  row !! "postcode" = Some (Some raw) ->
  row !! "lat" = Some (Some lat) -> row !! "lon" = Some (Some lon) ->
  collected self !! normalize_postcode analyzer raw = None ->
  ~ ((exists x, valid_coordinate py_float lon 180 x) /\ (exists y, valid_coordinate py_float lat 90 y)) ->
  external_rows py_float analyzer (row :: rest) self log =
  external_rows py_float analyzer rest self
    (log ++ [WarnBadCoordinates (Some lat) (Some lon) (country self)]).
Proof.
  intros Hp Hlat Hlon Hfresh Hbad.
  cbn [external_rows]. rewrite Hp, Hlat, Hlon. cbn [normalize_value]. rewrite Hfresh.
  destruct (to_float_str lon 180) as [[x Hx]| ->]; [|reflexivity]. rewrite Hx.
  destruct (to_float_str lat 90) as [[y Hy]| ->]; [|reflexivity].
  exfalso. apply Hbad. split; eexists; apply to_float_ok; eassumption.
Qed.

(** A row whose postcode is already collected is passed over. *)
Lemma external_row_present analyzer row rest self log raw lat lon acc :
  row !! "postcode" = Some (Some raw) ->
  row !! "lat" = Some lat -> row !! "lon" = Some lon ->
  collected self !! normalize_postcode analyzer raw = Some acc ->
  external_rows py_float analyzer (row :: rest) self log =
  external_rows py_float analyzer rest self log.
Proof.
  intros Hp Hlat Hlon Hacc. cbn [external_rows]. rewrite Hp, Hlat, Hlon.
  cbn [normalize_value]. now rewrite Hacc.
Qed.

(** The merge changes the mapping only. *)
Lemma external_rows_frame analyzer rows : forall self log,
  let self' := (external_rows py_float analyzer rows self log).1.1 in
  country self' = country self /\ matcher self' = matcher self /\
  normalization_cache self' = normalization_cache self.
Proof.
  induction rows as [|row rows IH]; intros self log; cbn [external_rows]; [easy|].
  destruct (row !! "postcode") as [pc|]; [|easy];
    destruct (row !! "lat") as [lat|]; try easy;
    destruct (row !! "lon") as [lon|]; try easy.
  destruct (normalize_value analyzer pc) as [postcode|e]; [|easy].
  destruct (collected self !! _); [apply IH|].
  destruct (_to_float py_float lon 180) as [x|[]]; try easy; try apply IH.
  destruct (_to_float py_float lat 90) as [y|[]]; try easy; try apply IH.
  specialize (IH (mkCollector (country self) (matcher self)
    (collected_iadd (collected self) postcode (x, y))
    (normalization_cache self)) log). exact IH.
Qed.

(** What is collected before the merge is not touched by it. *)
Lemma external_rows_keeps analyzer rows k acc : forall self log,
  collected self !! k = Some acc ->
  collected (external_rows py_float analyzer rows self log).1.1 !! k = Some acc.
Proof.
  induction rows as [|row rows IH]; intros self log Hk; cbn [external_rows]; [exact Hk|].
  destruct (row !! "postcode") as [pc|]; [|exact Hk];
    destruct (row !! "lat") as [lat|]; try exact Hk;
    destruct (row !! "lon") as [lon|]; try exact Hk.
  destruct (normalize_value analyzer pc) as [postcode|e]; [|exact Hk].
  destruct (collected self !! postcode) eqn:Hfresh; [now apply IH|].
  destruct (_to_float py_float lon 180) as [x|[]]; try exact Hk; try (now apply IH).
  destruct (_to_float py_float lat 90) as [y|[]]; try exact Hk; try (now apply IH).
  apply IH. cbn [collected]. unfold collected_iadd.
  rewrite lookup_insert_ne; [exact Hk|]. intros <-. congruence.
Qed.

Lemma fold_insert_lookup_notin (l : list (string * option string)) k :
  forall d : gmap string (option string),
  k ∉ map fst l ->
  fold_left (fun d '(k, v) => <[k := v]> d) l d !! k = d !! k.
Proof.
  induction l as [|[k' v] l IH]; intros d Hk; simpl; [reflexivity|].
  cbn [map fst] in Hk. apply not_elem_of_cons in Hk as [Hne Hk].
  rewrite (IH _ Hk). now apply lookup_insert_ne.
Qed.

Lemma zip_restval_keys names : forall record,
  map fst (zip_restval names record) = names.
Proof.
  induction names as [|k names IH]; intros [|v record]; simpl; now rewrite ?IH.
Qed.

(** A column missing from the header is missing from every row. *)
Lemma DictReader_row_missing names record k :
  k ∉ names -> DictReader_row names record !! k = None.
Proof.
  intros Hk. unfold DictReader_row.
  rewrite fold_insert_lookup_notin; [apply lookup_empty|].
  now rewrite zip_restval_keys.
Qed.

Lemma external_rows_bad_format analyzer row rest self log :
  row !! "postcode" = None \/ row !! "lat" = None \/ row !! "lon" = None ->
  external_rows py_float analyzer (row :: rest) self log =
  (self, log ++ [WarnBadFormat (country self)], Normal).
Proof.
  cbn [external_rows]. intros [H|[H|H]]; rewrite H;
    repeat match goal with |- context [match ?x with _ => _ end] => destruct x end;
    reflexivity.
Qed.

(** C8, as amended.  When the header of the external file lacks one of the
    columns postcode, lat and lon, the merge returns without raising, folds
    no external row and leaves the collector as it was; it logs the
    bad-format warning when the file has a non-blank data record, since the
    columns are checked on the first row. *)
Theorem external_missing_column self analyzer dir log f log' :
  _open_external self dir log = (Some f, log') ->
  missing_column f ->
  _update_from_external py_float self analyzer dir log =
  (self,
   log' ++ (if existsb nonblank (records f) then [WarnBadFormat (country self)] else []),
   Normal).
Proof.
  intros Hopen Hmiss. unfold _update_from_external. rewrite Hopen.
  unfold DictReader. induction (records f) as [|record rs IH]; cbn [List.filter map existsb].
  - simpl. now rewrite app_nil_r.
  - destruct (nonblank record); [|exact IH]. cbn [map orb].
    apply external_rows_bad_format.
    destruct Hmiss as [H|[H|H]]; [left|right;left|right;right];
      now apply DictReader_row_missing.
Qed.

(** C5.  External merge priority: an accumulator collected before the
    merge step of [commit] is the same after it, whatever the external file
    holds for its postcode. *)
Theorem external_keeps_collected self analyzer project_dir log k acc :
  collected self !! k = Some acc ->
  collected (merge_external py_float self analyzer project_dir log).1.1 !! k = Some acc.
Proof.
  intros Hk. destruct project_dir as [dir|]; [|exact Hk].
  unfold merge_external, _update_from_external.
  destruct (_open_external self dir log) as [[f|] log']; [|exact Hk].
  now apply external_rows_keeps.
Qed.

Lemma to_float_rejected s max_value :
  ~ (exists v, valid_coordinate py_float s max_value v) ->
  _to_float py_float (Some s) max_value = Raise ValueError.
Proof.
  intros H. destruct (to_float_str s max_value) as [[v Hv]|E]; [|exact E].
  exfalso. apply H. exists v. now apply to_float_ok.
Qed.

Lemma to_float_boundary s max_value q :
  py_float s = Some (Finite q) ->
  (q == max_value \/ q == - max_value)%Q ->
  _to_float py_float (Some s) max_value = Raise ValueError.
Proof.
  intros Hs Hq. apply to_float_rejected. intros (v & Hv & Hlo & Hhi).
  rewrite Hs in Hv. injection Hv as <-.
  destruct Hq as [Hq|Hq]; rewrite Hq in *; [now apply Qlt_irrefl in Hhi | now apply Qlt_irrefl in Hlo].
Qed.

(** Coordinate validation on rows that hold a string for lat and for
    lon.  [_to_float] accepts a string exactly when it parses to a finite
    number strictly inside (-max_value, max_value), and raises
    [ValueError] otherwise; the values 180, -180 (for lon) and 90, -90 (for
    lat) are rejected and 179.999999 is accepted as lon.  A row with a
    fresh postcode is folded in when lon is valid for 180 and lat for 90;
    when one of the two strings fails to parse or is out of range, that
    row alone is skipped, with a warning, and the rows after it are
    processed from the same collector.  A row that holds [None] for one of
    them is another matter: [float(None)] raises [TypeError]. *)
Theorem external_coordinate_validation :
  (forall s max_value v,
     _to_float py_float (Some s) max_value = Ok v <->
     valid_coordinate py_float s max_value v) /\
  (forall s max_value,
     ~ (exists v, valid_coordinate py_float s max_value v) ->
     _to_float py_float (Some s) max_value = Raise ValueError) /\
  (forall s q, py_float s = Some (Finite q) -> (q == 180 \/ q == - 180)%Q ->
     _to_float py_float (Some s) 180 = Raise ValueError) /\
  (forall s q, py_float s = Some (Finite q) -> (q == 90 \/ q == - 90)%Q ->
     _to_float py_float (Some s) 90 = Raise ValueError) /\
  (forall s q, py_float s = Some (Finite q) -> (q == 179.999999)%Q ->
     _to_float py_float (Some s) 180 = Ok q) /\
  (forall analyzer row rest self log raw lat lon x y,
     row !! "postcode" = Some (Some raw) ->
     row !! "lat" = Some (Some lat) -> row !! "lon" = Some (Some lon) ->
     collected self !! normalize_postcode analyzer raw = None ->
     valid_coordinate py_float lon 180 x -> valid_coordinate py_float lat 90 y ->
     external_rows py_float analyzer (row :: rest) self log =
     external_rows py_float analyzer rest
       (with_collected self
          (collected_iadd (collected self) (normalize_postcode analyzer raw) (x, y)))
       log) /\
  (forall analyzer row rest self log raw lat lon,
     row !! "postcode" = Some (Some raw) ->
     row !! "lat" = Some (Some lat) -> row !! "lon" = Some (Some lon) ->
     collected self !! normalize_postcode analyzer raw = None ->
     ~ ((exists x, valid_coordinate py_float lon 180 x) /\
        (exists y, valid_coordinate py_float lat 90 y)) ->
     external_rows py_float analyzer (row :: rest) self log =
     external_rows py_float analyzer rest self
       (log ++ [WarnBadCoordinates (Some lat) (Some lon) (country self)])).
Proof.
  split; [exact to_float_ok|].
  split; [exact to_float_rejected|].
  split; [intros s q; apply to_float_boundary|].
  split; [intros s q; apply to_float_boundary|].
  split.
  { intros s q Hs Hq. apply to_float_ok. split; [exact Hs|].
    rewrite Hq. split; reflexivity. }
  split; [exact external_row_accepted | exact external_row_rejected].
Qed.

End ExternalFacts.

(** ** Commit *)

Section CommitFacts.
Import Postcodes.
Context {Match : Type} (py_float : string -> option pyfloat).
Implicit Types (self : _PostcodeCollector Match) (coll : gmap string PointsCentroid).

(** The diff computed after the statements of the diff is empty. *)
Lemma compute_changes_settled self conn :
  unique_postcodes (country self) (location_postcode conn) ->
  _compute_changes self
    (execute_changes (country self) (_compute_changes self conn).2 conn) =
  ((_compute_changes self conn).1, ([], [], [])).
Proof.
  intros Hnd. rewrite (compute_changes_closed self conn Hnd). cbv zeta. cbn [fst snd].
  destruct (changes_after_changes (collected self) (country self)
              (location_postcode conn) Hnd) as (Hnd1 & Hrows1 & Hrem).
  cbv zeta in Hnd1, Hrows1, Hrem.
  rewrite <- execute_changes_table in Hnd1, Hrows1, Hrem.
  rewrite (compute_changes_closed self _ Hnd1). cbv zeta.
  rewrite Hrem, map_to_list_empty. cbn [map].
  rewrite filter_none, omap_none; [reflexivity| |].
  - intros row Hrow. now apply Hrows1.
  - intros k Hk. rewrite map_fmap in Hk. apply list_elem_of_fmap in Hk as (row & -> & Hrow).
    now apply Hrows1.
Qed.

Lemma open_external_log self dir log :
  _open_external self dir log =
  ((_open_external self dir []).1, log ++ (_open_external self dir []).2).
Proof.
  unfold _open_external.
  repeat (destruct (dir !! _)); simpl; now rewrite ?app_nil_r.
Qed.

Lemma merge_external_log self analyzer project_dir log :
  merge_external py_float self analyzer project_dir log =
  let r := merge_external py_float self analyzer project_dir [] in
  (r.1.1, log ++ r.1.2, r.2).
Proof.
  destruct project_dir as [dir|]; simpl; [|now rewrite app_nil_r].
  unfold _update_from_external. rewrite (open_external_log self dir log).
  destruct (_open_external self dir []) as [[f|] l0]; simpl; [|reflexivity].
  rewrite external_rows_log. rewrite (external_rows_log _ _ _ _ l0). simpl.
  now rewrite app_assoc.
Qed.

Lemma merge_external_frame self analyzer project_dir log :
  let self' := (merge_external py_float self analyzer project_dir log).1.1 in
  country self' = country self /\ matcher self' = matcher self /\
  normalization_cache self' = normalization_cache self.
Proof.
  destruct project_dir as [dir|]; simpl; [|easy].
  unfold _update_from_external. destruct (_open_external self dir log) as [[f|] l0]; [|easy].
  apply external_rows_frame.
Qed.

Lemma commit_twice self conn analyzer project_dir log self1 conn1 log1 :
  unique_postcodes (country self) (location_postcode conn) ->
  commit py_float self conn analyzer project_dir log = (self1, conn1, log1, Normal) ->
  exists merged log2,
    merge_external py_float self analyzer project_dir log1 = (merged, log2, Normal) /\
    (_compute_changes merged conn1).2 = ([], [], []) /\
    commit py_float self conn1 analyzer project_dir log1 =
      (self1, conn1, log2 ++ [InfoProcessing (country self) 0 0 0], Normal).
Proof.
  intros Hnd Hc. unfold commit in *.
  rewrite (merge_external_log self analyzer project_dir log) in Hc.
  rewrite (merge_external_log self analyzer project_dir log1).
  pose proof (merge_external_frame self analyzer project_dir []) as (Hco & Hma & Hca).
  destruct (merge_external py_float self analyzer project_dir []) as [[merged l0] st].
  cbv zeta in *. cbn [fst snd] in *.
  destruct st as [|e]; [|discriminate Hc].
  rewrite <- Hco in Hnd.
  destruct (_compute_changes merged conn) as [reset [[to_add to_delete] to_update]] eqn:E1.
  assert (Hself : self1 = reset) by congruence.
  assert (Hconn : conn1 =
    execute_changes (country merged) (to_add, to_delete, to_update) conn) by congruence.
  assert (Hlog : log1 = (log ++ l0) ++ [InfoProcessing (country merged) (length to_add)
    (length to_delete) (length to_update)]) by congruence.
  clear Hc. subst self1 conn1.
  pose proof (compute_changes_settled merged conn Hnd) as Hs.
  rewrite E1 in Hs. cbn [fst snd] in Hs.
  exists merged, (log1 ++ l0). split; [reflexivity|].
  rewrite Hs. split; [reflexivity|].
  cbn [length execute_changes nonempty]. now rewrite <- Hco.
Qed.

(** C4.  Idempotence of commit: when a collector fed some source rows is
    committed against a stored table (with at most one record per
    postcode of the country) and a second collector for the same country,
    fed the same rows, is committed against the resulting table, the
    second commit's diff has to-add, to-delete and to-update all empty; it
    sends no statement and leaves the table as it is. *)
Theorem commit_idempotent c (m : option (CountryPostcodeMatcher Match)) rows conn
    analyzer project_dir log self1 conn1 log1 :
  let self := add_all add rows (new c m) in
  unique_postcodes c (location_postcode conn) ->
  commit py_float self conn analyzer project_dir log = (self1, conn1, log1, Normal) ->
  exists merged log2,
    merge_external py_float self analyzer project_dir log1 = (merged, log2, Normal) /\
    (_compute_changes merged conn1).2 = ([], [], []) /\
    commit py_float self conn1 analyzer project_dir log1 =
      (self1, conn1, log2 ++ [InfoProcessing c 0 0 0], Normal).
Proof.
  intros self Hu Hc.
  assert (Hco : country self = c) by (unfold self; now rewrite add_all_country).
  rewrite <- Hco in Hu.
  destruct (commit_twice self conn analyzer project_dir log self1 conn1 log1 Hu Hc)
    as (merged & log2 & H1 & H2 & H3).
  exists merged, log2. rewrite <- Hco. auto.
Qed.

End CommitFacts.

(** ** The driver *)

Section DriverFacts.
Import Postcodes.
Context {Match : Type} (py_float : string -> option pyfloat).
Context (get_matcher : string -> option (CountryPostcodeMatcher Match)).
Implicit Types (self : _PostcodeCollector Match) (coll : gmap string PointsCentroid).

Lemma quiet_refl c x : quiet c x x.
Proof.
  split; [reflexivity|]. split.
  - exists []. split; [now rewrite app_nil_r | now intros s ?%elem_of_nil].
  - exists []. now rewrite app_nil_r.
Qed.

Lemma quiet_trans c x y z : quiet c x y -> quiet c y z -> quiet c x z.
Proof.
  intros (H1 & (s1 & E1 & F1) & (l1 & L1)) (H2 & (s2 & E2 & F2) & (l2 & L2)).
  split; [congruence|]. split.
  - exists (s1 ++ s2). split; [now rewrite E2, E1, app_assoc|].
    intros s [?|?]%elem_of_app; auto.
  - exists (l1 ++ l2). now rewrite L2, L1, app_assoc.
Qed.

Lemma filter_map_fix {A} (p : A -> bool) (f : A -> A) (l : list A) :
  (forall a, p (f a) = p a) -> (forall a, p a = true -> f a = a) ->
  List.filter p (map f l) = List.filter p l.
Proof.
  intros Hp Hf. induction l as [|a l IH]; simpl; [reflexivity|].
  rewrite Hp. destruct (p a) eqn:E; [|exact IH]. now rewrite (Hf a E), IH.
Qed.

Lemma apply_updates_other c l : forall r,
  country_code r <> c -> apply_updates c l r = r.
Proof.
  unfold apply_updates. induction l as [|u l IH]; intros r Hr; simpl; [reflexivity|].
  unfold update_row at 2. apply String.eqb_neq in Hr as Hr'. rewrite Hr'. simpl.
  now apply IH.
Qed.

(** The statements for one country leave the rows of another alone. *)
Lemma execute_changes_other c c' ch conn :
  c' <> c ->
  List.filter (of_country c) (location_postcode (execute_changes c' ch conn)) =
  List.filter (of_country c) (location_postcode conn).
Proof.
  intros Hne. destruct ch as [[a d] u]. rewrite execute_changes_table.
  rewrite update_postcodes_rows_eq, insert_postcodes_eq.
  rewrite filter_map_fix.
  - unfold delete_postcodes. rewrite filter_filter, List.filter_app.
    rewrite (filter_none _ (map (new_row c') a)), app_nil_r.
    + apply List.filter_ext. intros r. unfold of_country.
      destruct (String.eqb_spec (country_code r) c') as [E|E]; simpl.
      * rewrite E. apply String.eqb_neq in Hne. rewrite Hne. apply andb_false_r.
      * reflexivity.
    + intros r (t & -> & _)%list_elem_of_fmap. unfold of_country, new_row. simpl.
      apply String.eqb_neq in Hne. rewrite Hne. apply andb_false_r.
  - intros r. unfold of_country. now rewrite apply_updates_country.
  - intros r Hr. apply apply_updates_other. unfold of_country in Hr.
    apply String.eqb_eq in Hr. congruence.
Qed.

Lemma execute_changes_statements c ch conn :
  exists stmts, executed (execute_changes c ch conn) = executed conn ++ stmts /\
    forall s, s ∈ stmts -> statement_country s = c.
Proof.
  destruct ch as [[a d] u]. unfold execute_changes.
  exists ((if nonempty a then [Insert c a] else []) ++
          (if nonempty d then [Delete c d] else []) ++
          (if nonempty u then [Update c u] else [])).
  split.
  - destruct (nonempty a), (nonempty d), (nonempty u); simpl;
      rewrite <- ?app_assoc, ?app_nil_r; reflexivity.
  - intros s Hs. destruct (nonempty a), (nonempty d), (nonempty u); simpl in Hs;
      repeat (apply elem_of_cons in Hs as [->|Hs]; [reflexivity|]);
      now apply elem_of_nil in Hs.
Qed.


(** A commit for another country is quiet for [c], however it ends. *)
Lemma commit_quiet c self conn analyzer project_dir log :
  country self <> c ->
  let r := commit py_float self conn analyzer project_dir log in
  quiet c (conn, log) (r.1.1.2, r.1.2).
Proof.
  intros Hne. unfold commit.
  rewrite (merge_external_log py_float self analyzer project_dir log).
  pose proof (merge_external_frame py_float self analyzer project_dir []) as (Hco & _).
  destruct (merge_external py_float self analyzer project_dir []) as [[merged l0] st].
  cbv zeta in *. cbn [fst snd] in *. rewrite <- Hco in Hne.
  destruct st as [|e]; cbn [fst snd].
  - destruct (_compute_changes merged conn) as [reset [[a d] u]]. cbn [fst snd].
    split; [now apply execute_changes_other|]. split.
    + destruct (execute_changes_statements (country merged) (a, d, u) conn)
        as (stmts & E & F). exists stmts. split; [exact E|].
      intros s Hs. now rewrite (F s Hs).
    + eexists. now rewrite <- app_assoc.
  - split; [reflexivity|]. split.
    + exists []. split; [now rewrite app_nil_r | now intros s ?%elem_of_nil].
    + now exists l0.
Qed.

(** The selected rows, from the rows of the country. *)
Lemma select_postcodes_filter c T T' :
  List.filter (of_country c) T' = List.filter (of_country c) T ->
  select_postcodes c T' = select_postcodes c T.
Proof. intros H. rewrite !select_postcodes_eq. now rewrite H. Qed.

(** With nothing collected, every stored postcode goes to [to_delete]. *)
Lemma changes_fold_empty rows : forall upd del,
  fold_left changes_step rows (∅, upd, del) = (∅, upd, del ++ map key rows).
Proof.
  induction rows as [|[[k x] y] rows IH]; intros upd del; simpl.
  - now rewrite app_nil_r.
  - rewrite lookup_empty, IH. unfold key at 2. simpl. now rewrite <- app_assoc.
Qed.

Lemma compute_changes_empty self conn :
  collected self = ∅ ->
  (_compute_changes self conn).2 =
  ([], stored_postcodes (country self) (location_postcode conn), []).
Proof.
  intros He. unfold _compute_changes. rewrite He, changes_fold_empty.
  now rewrite map_to_list_empty.
Qed.


Lemma commit_open_quiet c analyzer project_dir (st : DriverState Match) :
  other_country c (collector st) ->
  let r := commit_open py_float analyzer project_dir st in
  quiet c (conn st, log st) (r.1.1, r.1.2).
Proof.
  intros Hc. unfold commit_open. destruct (collector st) as [col|] eqn:E.
  - pose proof (commit_quiet c col (conn st) analyzer project_dir (log st)
                  (Hc col eq_refl)) as Hq.
    destruct (commit _ _ _ _ _ _) as [[[s' conn'] log'] status]. exact Hq.
  - apply quiet_refl.
Qed.

Lemma stream_loop_quiet c analyzer project_dir rows : forall st : DriverState Match,
  c ∉ map (fun r => r.1.1.1) rows ->
  other_country c (collector st) ->
  let r := stream_loop py_float get_matcher analyzer project_dir rows st in
  quiet c (conn st, log st) (conn r.1, log r.1) /\
  (c ∈ todo_countries st -> c ∈ todo_countries r.1) /\
  other_country c (collector r.1).
Proof.
  induction rows as [|[[[cc pc] x] y] rows IH]; intros st Hnin Hc; cbn [stream_loop].
  - split; [apply quiet_refl | auto].
  - cbn [map] in Hnin. apply not_elem_of_cons in Hnin as [Hcc Hnin]. simpl in Hcc.
    pose proof (commit_open_quiet c analyzer project_dir st Hc) as Hq.
    destruct (match collector st with
              | Some c0 => negb (cc =? country c0)%string
              | None => true
              end) eqn:Esw.
    + destruct (commit_open py_float analyzer project_dir st)
        as [[conn' log'] [|e]]; cbn [fst snd] in *.
      * match goal with |- context [stream_loop _ _ _ _ rows ?st1] =>
          specialize (IH st1 Hnin) end.
        cbn [collector conn log todo_countries] in IH.
        destruct IH as (Hq' & Ht & Ho).
        { intros col [= <-]. rewrite add_country. simpl. congruence. }
        split; [eapply quiet_trans; eassumption|]. split; [|exact Ho].
        intros Hin. apply Ht. set_solver.
      * split; [exact Hq|]. split; [auto|exact Hc].
    + destruct (collector st) as [col|] eqn:Ecol; [|discriminate].
      match goal with |- context [stream_loop _ _ _ _ rows ?st1] =>
        specialize (IH st1 Hnin) end.
      cbn [collector conn log todo_countries] in IH. apply IH.
      intros col' [= <-]. rewrite add_country. now apply Hc.
Qed.


Lemma todo_loop_quiet c analyzer project_dir todo : forall conn log,
  c ∉ todo ->
  let r := todo_loop py_float get_matcher analyzer project_dir todo conn log in
  quiet c (conn, log) (r.1.1, r.1.2).
Proof.
  induction todo as [|c' todo IH]; intros conn log Hnin; cbn [todo_loop].
  - apply quiet_refl.
  - apply not_elem_of_cons in Hnin as [Hne Hnin].
    pose proof (commit_quiet c (new c' (get_matcher c')) conn analyzer project_dir log) as Hq.
    destruct (commit _ _ _ _ _ _) as [[[s' conn'] log'] [|e]]; cbn [fst snd] in *.
    + eapply quiet_trans; [apply Hq; simpl; congruence | now apply IH].
    + apply Hq. simpl. congruence.
Qed.

(** The commit of a collector that is empty after the merge step. *)
Lemma commit_stale c m conn analyzer project_dir log self' conn' log' :
  collected (merge_external py_float (new c m) analyzer project_dir []).1.1 = ∅ ->
  commit py_float (new c m) conn analyzer project_dir log = (self', conn', log', Normal) ->
  let pcs := stored_postcodes c (location_postcode conn) in
  conn' = execute_changes c ([], pcs, []) conn /\
  exists logs, log' = log ++ logs /\ InfoProcessing c 0 (length pcs) 0 ∈ logs.
Proof.
  intros Hempty Hc pcs. unfold commit in Hc.
  rewrite (merge_external_log py_float (new c m) analyzer project_dir log) in Hc.
  pose proof (merge_external_frame py_float (new c m) analyzer project_dir []) as (Hco & _).
  destruct (merge_external py_float (new c m) analyzer project_dir []) as [[merged l0] st].
  cbv zeta in *. cbn [fst snd] in *. simpl in Hco.
  destruct st as [|e]; [|discriminate Hc].
  pose proof (compute_changes_empty merged conn Hempty) as Hch.
  destruct (_compute_changes merged conn) as [reset [[a d] u]]. cbn [snd] in Hch.
  rewrite Hco in *. injection Hch as -> -> ->.
  subst pcs.
  assert (Hconn : conn' = execute_changes c ([], stored_postcodes c (location_postcode conn), []) conn) by congruence.
  assert (Hlog : log' = (log ++ l0) ++ [InfoProcessing c (length (@nil (string * Q * Q)))
            (length (stored_postcodes c (location_postcode conn)))
            (length (@nil (Q * Q * string)))]) by congruence.
  split; [exact Hconn|].
  exists (l0 ++ [InfoProcessing c 0 (length (stored_postcodes c (location_postcode conn))) 0]). split.
  - rewrite Hlog. simpl. now rewrite <- app_assoc.
  - apply elem_of_app. right. apply list_elem_of_here.
Qed.

Lemma todo_loop_stale c analyzer project_dir todo : forall conn log conn' log',
  NoDup todo -> c ∈ todo ->
  collected (merge_external py_float (new c (get_matcher c)) analyzer project_dir []).1.1 = ∅ ->
  todo_loop py_float get_matcher analyzer project_dir todo conn log = (conn', log', Normal) ->
  let pcs := stored_postcodes c (location_postcode conn) in
  exists stmts logs,
    executed conn' = executed conn ++ stmts /\ log' = log ++ logs /\
    (pcs <> [] -> Delete c pcs ∈ stmts) /\
    (forall s, s ∈ stmts -> statement_country s = c -> s = Delete c pcs) /\
    InfoProcessing c 0 (length pcs) 0 ∈ logs.
Proof.
  induction todo as [|c' todo IH]; intros conn log conn' log' Hnd Hin Hempty Hrun pcs;
    [now apply elem_of_nil in Hin|].
  apply NoDup_cons in Hnd as [Hc' Hnd]. cbn [todo_loop] in Hrun.
  destruct (decide (c' = c)) as [->|Hne].
  - destruct (commit py_float (new c (get_matcher c)) conn analyzer project_dir log)
      as [[[s1 conn1] log1] [|e]] eqn:Ec; [|discriminate Hrun].
    destruct (commit_stale c _ conn analyzer project_dir log s1 conn1 log1 Hempty Ec)
      as (Hconn1 & logs1 & Hlog1 & Hinfo).
    pose proof (todo_loop_quiet c analyzer project_dir todo conn1 log1 Hc') as Hq.
    cbv zeta in Hq. unfold quiet in Hq. rewrite Hrun in Hq. cbn [fst snd] in Hq.
    destruct Hq as (_ & (stmts2 & E2 & F2) & (logs2 & L2)).
    fold pcs in Hconn1, Hinfo.
    exists ((if nonempty pcs then [Delete c pcs] else []) ++ stmts2), (logs1 ++ logs2).
    split; [|split; [|split; [|split]]].
    + rewrite E2, Hconn1. unfold execute_changes. cbn [nonempty].
      destruct (nonempty pcs); simpl; now rewrite <- ?app_assoc.
    + now rewrite L2, Hlog1, app_assoc.
    + intros Hpcs. apply elem_of_app. left. destruct pcs; [congruence|]. apply list_elem_of_here.
    + intros s [Hs|Hs]%elem_of_app Hsc.
      * destruct (nonempty pcs); [|now apply elem_of_nil in Hs].
        now apply list_elem_of_singleton in Hs.
      * now apply F2 in Hs.
    + apply elem_of_app. now left.
  - apply elem_of_cons in Hin as [->|Hin]; [congruence|].
    pose proof (commit_quiet c (new c' (get_matcher c')) conn analyzer project_dir log) as Hq.
    cbv zeta in Hq. unfold quiet in Hq.
    destruct (commit py_float (new c' (get_matcher c')) conn analyzer project_dir log)
      as [[[s1 conn1] log1] [|e]] eqn:Ec; [|discriminate Hrun].
    cbn [fst snd] in Hq. destruct Hq as (Hrows & (stmts1 & E1 & F1) & (logs1 & L1));
      [simpl; congruence|].
    destruct (IH conn1 log1 conn' log' Hnd Hin Hempty Hrun)
      as (stmts2 & logs2 & E2 & L2 & Hdel & Honly & Hinfo).
    assert (Hpcs : stored_postcodes c (location_postcode conn1) = pcs).
    { unfold pcs, stored_postcodes. now rewrite (select_postcodes_filter c _ _ Hrows). }
    rewrite Hpcs in *.
    exists (stmts1 ++ stmts2), (logs1 ++ logs2).
    split; [now rewrite E2, E1, app_assoc|].
    split; [now rewrite L2, L1, app_assoc|].
    split; [intros Hp; apply elem_of_app; right; now apply Hdel|].
    split; [|apply elem_of_app; now right].
    intros s [Hs|Hs]%elem_of_app Hsc; [now apply F1 in Hs | now apply Honly].
Qed.


Lemma stored_countries_postcodes c T :
  c ∈ stored_countries T -> stored_postcodes c T <> [].
Proof.
  unfold stored_countries, stored_postcodes. rewrite elem_of_list_to_set, map_fmap.
  intros (r & -> & Hr)%list_elem_of_fmap.
  assert (Hin : key (row_tuple r) ∈ map key (select_postcodes (country_code r) T)).
  { rewrite select_postcodes_eq, !map_fmap. do 2 apply list_elem_of_fmap_2.
    apply elem_of_List_filter. split; [exact Hr|]. apply String.eqb_refl. }
  intros E. rewrite E in Hin. now apply elem_of_nil in Hin.
Qed.

(** C6.  A country that has stored postcodes, contributes no row to the
    fresh stream and gets no row from the external merge is committed by
    the driver with an empty collector: of the statements of the pass, the
    only one for that country is the delete of all its stored postcodes
    (there is at least one), and the log records 0 added, all deleted,
    0 updated. *)
Theorem stale_country_deleted conn0 project_dir tokenizer placex log0 conn' log' c :
  update_postcodes py_float get_matcher conn0 project_dir tokenizer placex log0 =
    (conn', log', Normal) ->
  c ∈ stored_countries (location_postcode conn0) ->
  c ∉ map (fun r => r.1.1.1) placex ->
  collected (merge_external py_float (new c (get_matcher c)) (name_analyzer tokenizer)
               project_dir []).1.1 = ∅ ->
  let pcs := stored_postcodes c (location_postcode conn0) in
  pcs <> [] /\
  exists stmts logs,
    executed conn' = executed conn0 ++ stmts /\ log' = log0 ++ logs /\
    Delete c pcs ∈ stmts /\
    (forall s, s ∈ stmts -> statement_country s = c -> s = Delete c pcs) /\
    InfoProcessing c 0 (length pcs) 0 ∈ logs.
Proof.
  intros Hrun Hstored Hstream Hempty pcs.
  assert (Hpcs : pcs <> []) by now apply stored_countries_postcodes.
  split; [exact Hpcs|]. unfold update_postcodes in Hrun.
  set (analyzer := name_analyzer tokenizer) in *.
  set (st0 := mkDriver None (stored_countries (location_postcode conn0)) conn0 log0) in *.
  assert (Ho0 : other_country c (collector st0)) by (intros col; discriminate).
  pose proof (stream_loop_quiet c analyzer project_dir placex st0 Hstream Ho0)
    as (Hq1 & Htodo & Ho1).
  destruct (stream_loop py_float get_matcher analyzer project_dir placex st0)
    as [st1 [|e]]; [|discriminate Hrun]. cbn [fst snd] in *.
  pose proof (commit_open_quiet c analyzer project_dir st1 Ho1) as Hq2.
  destruct (commit_open py_float analyzer project_dir st1)
    as [[conn2 log2] [|e]]; [|discriminate Hrun]. cbn [fst snd] in *.
  pose proof (quiet_trans c _ _ _ Hq1 Hq2) as (Hrows & (stmts1 & E1 & F1) & (logs1 & L1)).
  cbn [fst snd conn log] in *.
  destruct (todo_loop_stale c analyzer project_dir (elements (todo_countries st1))
              conn2 log2 conn' log')
    as (stmts2 & logs2 & E2 & L2 & Hdel & Honly & Hinfo);
    [apply NoDup_elements | apply elem_of_elements; now apply Htodo | exact Hempty
     | exact Hrun |].
  assert (Hsame : stored_postcodes c (location_postcode conn2) = pcs).
  { unfold pcs, stored_postcodes. now rewrite (select_postcodes_filter c _ _ Hrows). }
  rewrite Hsame in *.
  exists (stmts1 ++ stmts2), (logs1 ++ logs2).
  split; [now rewrite E2, E1, app_assoc|].
  split; [now rewrite L2, L1, app_assoc|].
  split; [apply elem_of_app; right; now apply Hdel|].
  split; [|apply elem_of_app; now right].
  intros s [Hs|Hs]%elem_of_app Hsc; [now apply F1 in Hs | now apply Honly].
Qed.











(** A record too short for the header makes [float(None)] raise
    [TypeError], which the merge does not catch. *)
Example short_record_raises :
  (external_rows Fixtures.decimal_float Fixtures.plain_analyzer
     (DictReader (mkCsv ["postcode"; "lat"; "lon"] [["12345"; "50.0"]]))
     (new (Match:=string) "de" None) []).2 = Raised TypeError.
Proof. reflexivity. Qed.

End DriverFacts.

(** ** Invariants of the collector and of the table *)

Section Invariants.
Import Postcodes.
Context {Match : Type} (py_float : string -> option pyfloat).
Context (get_matcher : string -> option (CountryPostcodeMatcher Match)).
Implicit Types (self : _PostcodeCollector Match) (coll : gmap string PointsCentroid).

Lemma counted_empty : counted ∅.
Proof. intros k acc H. now rewrite lookup_empty in H. Qed.

Lemma collected_iadd_counted coll k p :
  (forall acc, coll !! k = Some acc -> (0 <= count acc)%Z) ->
  counted (delete k coll) -> counted (collected_iadd coll k p).
Proof.
  intros H0 Hc k' acc'. unfold collected_iadd.
  destruct (decide (k = k')) as [<-|Hne].
  - rewrite lookup_insert_eq. intros [= <-]. simpl.
    destruct (coll !! k) as [acc|] eqn:E; simpl; [specialize (H0 acc eq_refl)|]; lia.
  - rewrite lookup_insert_ne by exact Hne. intros H. apply (Hc k').
    now rewrite lookup_delete_ne.
Qed.

Lemma counted_iadd coll k p : counted coll -> counted (collected_iadd coll k p).
Proof.
  intros Hc. apply collected_iadd_counted.
  - intros acc Hacc. specialize (Hc k acc Hacc). lia.
  - intros k' acc'. destruct (decide (k = k')) as [<-|Hne].
    + now rewrite lookup_delete_eq.
    + rewrite lookup_delete_ne by exact Hne. apply Hc.
Qed.

(** Every accumulator of a collector holds at least one point: the
    presence of a key is the truth of its accumulator, and [centroid]
    never divides by zero. *)
Lemma add_counted self postcode x y :
  counted (collected self) -> counted (collected (add self postcode x y)).
Proof.
  intros Hc. unfold add. destruct (matcher self) as [m|]; [|exact Hc].
  assert (Hn : forall n, counted (add_normalized (collected self) n x y)).
  { intros [n|]; simpl; [|exact Hc]. destruct (n =? "")%string; [exact Hc|].
    now apply counted_iadd. }
  destruct (normalization_cache self) as [[raw cached]|];
    [destruct (raw =? postcode)%string|]; apply Hn.
Qed.

Lemma external_rows_counted analyzer rows : forall self log,
  counted (collected self) ->
  counted (collected (external_rows py_float analyzer rows self log).1.1).
Proof.
  induction rows as [|row rows IH]; intros self log Hc; cbn [external_rows]; [exact Hc|].
  destruct (row !! "postcode") as [pc|]; [|exact Hc];
    destruct (row !! "lat") as [lat|]; try exact Hc;
    destruct (row !! "lon") as [lon|]; try exact Hc.
  destruct (normalize_value analyzer pc) as [postcode|e]; [|exact Hc].
  destruct (collected self !! _); [now apply IH|].
  destruct (_to_float py_float lon 180) as [x|[]]; try exact Hc; try (now apply IH).
  destruct (_to_float py_float lat 90) as [y|[]]; try exact Hc; try (now apply IH).
  apply IH. cbn [collected]. now apply counted_iadd.
Qed.

(** The statements of a diff keep the postcodes of every country distinct. *)
Lemma execute_changes_unique self conn :
  unique_table (location_postcode conn) ->
  unique_table
    (location_postcode
       (execute_changes (country self) (_compute_changes self conn).2 conn)).
Proof.
  intros Hu c. destruct (decide (country self = c)) as [<-|Hne].
  - rewrite (compute_changes_closed self conn (Hu _)). cbv zeta. cbn [snd].
    rewrite execute_changes_table.
    now destruct (changes_after_changes (collected self) (country self)
                    (location_postcode conn) (Hu _)) as (Hnd & _).
  - unfold unique_postcodes, stored_postcodes.
    rewrite (select_postcodes_filter c (location_postcode conn));
      [apply Hu | now apply execute_changes_other].
Qed.

Lemma commit_unique self conn analyzer project_dir log :
  unique_table (location_postcode conn) ->
  unique_table (location_postcode (commit py_float self conn analyzer project_dir log).1.1.2).
Proof.
  intros Hu. unfold commit.
  destruct (merge_external py_float self analyzer project_dir log) as [[merged l0] [|e]];
    [|exact Hu].
  pose proof (execute_changes_unique merged conn Hu) as H.
  now destruct (_compute_changes merged conn) as [reset [[a d] u]].
Qed.

Lemma commit_open_unique analyzer project_dir (st : DriverState Match) :
  unique_table (location_postcode (conn st)) ->
  unique_table (location_postcode (commit_open py_float analyzer project_dir st).1.1).
Proof.
  intros Hu. unfold commit_open. destruct (collector st) as [col|]; [|exact Hu].
  pose proof (commit_unique col (conn st) analyzer project_dir (log st) Hu) as H.
  now destruct (commit _ _ _ _ _ _) as [[[s' conn'] log'] status].
Qed.

Lemma stream_loop_unique analyzer project_dir rows : forall st : DriverState Match,
  unique_table (location_postcode (conn st)) ->
  unique_table (location_postcode
    (conn (stream_loop py_float get_matcher analyzer project_dir rows st).1)).
Proof.
  induction rows as [|[[[cc pc] x] y] rows IH]; intros st Hu; cbn [stream_loop]; [exact Hu|].
  pose proof (commit_open_unique analyzer project_dir st Hu) as Hc.
  destruct (commit_open py_float analyzer project_dir st) as [[conn' log'] status].
  cbn [fst] in Hc.
  destruct (collector st) as [col|]; [destruct (negb _)|]; try destruct status;
    try (now apply IH); exact Hc.
Qed.

Lemma todo_loop_unique analyzer project_dir todo : forall conn log,
  unique_table (location_postcode conn) ->
  unique_table (location_postcode
    (todo_loop py_float get_matcher analyzer project_dir todo conn log).1.1).
Proof.
  induction todo as [|c todo IH]; intros conn log Hu; cbn [todo_loop]; [exact Hu|].
  pose proof (commit_unique (new c (get_matcher c)) conn analyzer project_dir log Hu) as Hc.
  destruct (commit _ _ _ _ _ _) as [[[s' conn'] log'] [|e]]; cbn [fst snd] in *;
    [now apply IH | exact Hc].
Qed.

(** X16.  The pass keeps the invariant of the stored table: at most one
    record per (country, postcode). *)
Lemma update_postcodes_unique conn0 project_dir tokenizer placex log0 :
  unique_table (location_postcode conn0) ->
  unique_table (location_postcode
    (update_postcodes py_float get_matcher conn0 project_dir tokenizer placex log0).1.1).
Proof.
  intros Hu. unfold update_postcodes.
  pose proof (stream_loop_unique (name_analyzer tokenizer) project_dir placex
    (mkDriver None (stored_countries (location_postcode conn0)) conn0 log0) Hu) as H1.
  destruct (stream_loop _ _ _ _ _ _) as [st1 [|e]]; cbn [fst snd] in *; [|exact H1].
  pose proof (commit_open_unique (name_analyzer tokenizer) project_dir st1 H1) as H2.
  destruct (commit_open _ _ _ _) as [[conn2 log2] [|e]]; cbn [fst snd] in *; [|exact H2].
  now apply todo_loop_unique.
Qed.

End Invariants.

(** ** The tolerance test *)

Section Tolerance.
Import Postcodes.

(** What the test of [_compute_changes] decides: a stored coordinate that
    exceeds the recomputed one by more than the tolerance. *)
Lemma moved_true_iff x y newx newy :
  moved x y newx newy = true <->
  (tolerance < x - newx \/ tolerance < y - newy)%Q.
Proof.
  unfold moved. rewrite orb_true_iff, !Qgt_bool_true. reflexivity.
Qed.

(** A stored point that exceeds the centroid by exactly the tolerance is
    not updated. *)
Lemma moved_at_tolerance newx newy :
  moved (newx + tolerance) (newy + tolerance) newx newy = false.
Proof.
  unfold moved. apply orb_false_iff. split; apply Qgt_bool_false;
    ring_simplify; apply Qle_refl.
Qed.

(** A stored point below the centroid is never updated, however far. *)
Lemma moved_below x y newx newy :
  (x <= newx)%Q -> (y <= newy)%Q -> moved x y newx newy = false.
Proof.
  intros Hx Hy. unfold moved. apply orb_false_iff.
  split; apply Qgt_bool_false; unfold tolerance; lra.
Qed.
End Tolerance.

(** ** The claims at sample inputs *)

Section Samples.
Import Postcodes Fixtures.

(** C2, where the code departs from it.  The stored point (13, 52) and
    the recomputed centroid (13.5, 52) differ by 0.5 in x, far beyond the
    tolerance, yet the diff has nothing to update: the test subtracts
    without taking the absolute value. *)
Theorem compute_changes_ignores_negative_drift :
  select_postcodes "de" (location_postcode drift_conn) = [("10115", 13, 52)%Q] /\
  centroid <$> collected drift_collector !! "10115" = Some ((0 + 13.5) / 1, (0 + 52) / 1)%Q /\
  (_compute_changes drift_collector drift_conn).2 = ([], [], []).
Proof. repeat split. Qed.

(** The same distance in the other direction is updated. *)
Example compute_changes_positive_drift :
  (_compute_changes drift_collector (mkConn [mkRow 0 "de" "10115" (14, 52)%Q] [])).2 =
  ([], [], [(((0 + 13.5) / 1)%Q, ((0 + 52) / 1)%Q, "10115")]).
Proof. reflexivity. Qed.

(** C1, as stated, fails: without matcher the raw postcode is not used as
    key; after [add] the mapping has no accumulator for it. *)
Lemma add_without_matcher_drops :
  collected (add (new (Match:=string) "xx" None) "12345" 1 2) !! "12345" = None.
Proof. reflexivity. Qed.

Lemma add_without_matcher_witness :
  matcher (new (Match:=string) "xx" None) = None /\
  add (new (Match:=string) "xx" None) "12345" 1 2 = new "xx" None.
Proof.
  split; [reflexivity|].
  apply (add_without_matcher (new (Match:=string) "xx" None) "12345" 1 2). reflexivity.
Defined.

Lemma normalization_cache_transparent_witness :
  cache_coherent (new "de" (Some five_matcher)) /\
  collected (add_all add de_rows (new "de" (Some five_matcher))) =
  collected (add_all add_uncached de_rows (new "de" (Some five_matcher))).
Proof.
  split; [exact I|].
  apply (normalization_cache_transparent (new "de" (Some five_matcher)) de_rows). exact I.
Defined.

Lemma changes_partition_witness :
  let self := add_all add de_rows (new "de" (Some five_matcher)) in
  let r := (_compute_changes self sample_conn).2 in
  unique_postcodes "de" sample_table /\
  r.1.2 = ["99999"] /\ update_keys r.2 = ["10115"] /\
  NoDup (add_keys r.1.1 ++ r.1.2 ++ update_keys r.2) /\
  forall k,
    k ∈ stored_postcodes "de" sample_table \/ is_Some (collected self !! k) ->
    exactly_one (k ∈ add_keys r.1.1) (k ∈ r.1.2) (k ∈ update_keys r.2)
      (unchanged (collected self) (select_postcodes "de" sample_table) k).
Proof.
  intros self r.
  assert (Hu : unique_postcodes "de" sample_table)
    by (apply (bool_decide_unpack _); vm_compute; exact I).
  split; [exact Hu|]. split; [reflexivity|]. split; [reflexivity|].
  apply (changes_partition self sample_conn (_compute_changes self sample_conn).1
           r.1.1 r.1.2 r.2); [exact Hu | reflexivity].
Defined.
Lemma commit_idempotent_witness :
  let self := add_all add de_rows (new "de" (Some five_matcher)) in
  let r := commit decimal_float self sample_conn plain_analyzer (Some de_dir) [] in
  unique_postcodes "de" sample_table /\
  executed r.1.1.2 =
    [Insert "de" [("10117", (0 + 13.4) / 1, (0 + 52.5) / 1); ("22222", (0 + 10.0) / 1, (0 + 50.0) / 1)]%Q;
     Delete "de" ["99999"];
     Update "de" [(((0 + 13 + 13.2 + 13.1) / 3)%Q, ((0 + 52 + 52.2 + 52.1) / 3)%Q, "10115")]] /\
  exists merged log2,
    merge_external decimal_float self plain_analyzer (Some de_dir) r.1.2 =
      (merged, log2, Normal) /\
    (_compute_changes merged r.1.1.2).2 = ([], [], []) /\
    commit decimal_float self r.1.1.2 plain_analyzer (Some de_dir) r.1.2 =
      (r.1.1.1, r.1.1.2, log2 ++ [InfoProcessing "de" 0 0 0], Normal).
Proof.
  intros self r.
  assert (Hu : unique_postcodes "de" sample_table)
    by (apply (bool_decide_unpack _); vm_compute; exact I).
  split; [exact Hu|]. split; [vm_compute; reflexivity|].
  apply (commit_idempotent decimal_float "de" (Some five_matcher) de_rows sample_conn
           plain_analyzer (Some de_dir) [] r.1.1.1 r.1.1.2 r.1.2);
    [exact Hu | vm_compute; reflexivity].
Defined.

Lemma stale_country_deleted_witness :
  let r := update_postcodes decimal_float all_five sample_conn (Some de_dir)
             plain_tokenizer sample_placex [] in
  r.2 = Normal /\
  stored_postcodes "it" sample_table = ["00100"; "00200"] /\
  exists stmts logs,
    executed r.1.1 = [] ++ stmts /\ r.1.2 = [] ++ logs /\
    Delete "it" ["00100"; "00200"] ∈ stmts /\
    (forall s, s ∈ stmts -> statement_country s = "it" ->
       s = Delete "it" ["00100"; "00200"]) /\
    InfoProcessing "it" 0 2 0 ∈ logs.
Proof.
  intros r. split; [reflexivity|]. split; [reflexivity|].
  apply (stale_country_deleted decimal_float all_five sample_conn (Some de_dir)
           plain_tokenizer sample_placex [] r.1.1 r.1.2 "it").
  - vm_compute. reflexivity.
  - apply elem_of_list_to_set. apply (bool_decide_unpack _). vm_compute. exact I.
  - apply (bool_decide_unpack _). vm_compute. exact I.
  - vm_compute. reflexivity.
Defined.
Lemma external_keeps_collected_witness :
  collected de_collector !! "10115" = Some (iadd init (13, 52)%Q) /\
  collected (merge_external decimal_float de_collector plain_analyzer (Some de_dir) []).1.1
    !! "10115" = Some (iadd init (13, 52)%Q).
Proof.
  split; [reflexivity|].
  apply (external_keeps_collected decimal_float de_collector plain_analyzer
           (Some de_dir) [] "10115" (iadd init (13, 52)%Q)).
  reflexivity.
Defined.

Lemma external_coordinate_validation_witness :
  _to_float decimal_float (Some "180.0") 180 = Raise ValueError /\
  _to_float decimal_float (Some "-180.0") 180 = Raise ValueError /\
  _to_float decimal_float (Some "90.0") 90 = Raise ValueError /\
  _to_float decimal_float (Some "-90.0") 90 = Raise ValueError /\
  _to_float decimal_float (Some "179.999999") 180 = Ok 179.999999%Q /\
  external_rows decimal_float plain_analyzer
    (DictReader (mkCsv ["postcode"; "lat"; "lon"] [["11111"; "95.0"; "10.0"]]))
    de_collector [] =
  (de_collector, [WarnBadCoordinates (Some "95.0") (Some "10.0") "de"], Normal).
Proof.
  destruct (external_coordinate_validation (Match:=string) decimal_float)
    as (Hok & Hrej & Hlon & Hlat & Hin & Hacc & Hskip).
  split; [apply (Hlon "180.0" 180.0%Q); [reflexivity | now left]|].
  split; [apply (Hlon "-180.0" (-180.0)%Q); [reflexivity | now right]|].
  split; [apply (Hlat "90.0" 90.0%Q); [reflexivity | now left]|].
  split; [apply (Hlat "-90.0" (-90.0)%Q); [reflexivity | now right]|].
  split; [apply (Hin "179.999999" 179.999999%Q); reflexivity|].
  apply (Hskip plain_analyzer _ [] de_collector [] "11111" "95.0" "10.0");
    try reflexivity.
  intros [_ (y & Hy & _ & Hhi)]. injection Hy as <-. discriminate Hhi.
Defined.
Lemma external_missing_column_witness :
  missing_column typo_file /\
  _update_from_external decimal_float de_collector plain_analyzer
    {["de_postcodes.csv" := typo_file]} [] =
  (de_collector, [InfoExternalFile "de_postcodes.csv"; WarnBadFormat "de"], Normal).
Proof.
  assert (Hm : missing_column typo_file).
  { left. apply (bool_decide_unpack _). vm_compute. exact I. }
  split; [exact Hm|].
  apply (external_missing_column decimal_float de_collector plain_analyzer
           {["de_postcodes.csv" := typo_file]} [] typo_file
           [InfoExternalFile "de_postcodes.csv"]); [reflexivity | exact Hm].
Defined.

(** C8, as stated, fails in one point: a file whose header lacks a
    column and that has no data record is passed without any warning. *)
Lemma external_missing_column_silent :
  missing_column header_only_file /\
  _update_from_external decimal_float de_collector plain_analyzer
    {["de_postcodes.csv" := header_only_file]} [] =
  (de_collector, [InfoExternalFile "de_postcodes.csv"], Normal).
Proof.
  split; [|reflexivity].
  right; right. apply (bool_decide_unpack _). vm_compute. exact I.
Qed.
(** C7, where the code departs from it.  The first record of the file
    stops before the lon column, so [csv.DictReader] leaves [row['lon']]
    at [None] and [float(None)] raises [TypeError].  [except ValueError]
    does not catch it: the row is not skipped with a warning, the valid
    record after it is not read (22222 is not collected), the exception
    leaves the merge and [commit], and [update_postcodes] ends with it
    before any statement is sent.  What [float] does on strings plays no
    part: this holds for every [py_float]. *)
Theorem short_record_aborts_merge (py_float : string -> option pyfloat) :
  let dir : gmap string csvfile := {["de_postcodes.csv" := ragged_file]} in
  DictReader ragged_file =
    [{["postcode" := Some "33333"; "lat" := Some "50.0"; "lon" := None]};
     {["postcode" := Some "22222"; "lat" := Some "50.0"; "lon" := Some "10.0"]}] /\
  _update_from_external py_float de_collector plain_analyzer dir [] =
    (de_collector, [InfoExternalFile "de_postcodes.csv"], Raised TypeError) /\
  collected de_collector !! "22222" = None /\
  commit py_float de_collector sample_conn plain_analyzer (Some dir) [] =
    (de_collector, sample_conn, [InfoExternalFile "de_postcodes.csv"], Raised TypeError) /\
  update_postcodes py_float all_five sample_conn (Some dir) plain_tokenizer sample_placex [] =
    (sample_conn, [InfoExternalFile "de_postcodes.csv"], Raised TypeError).
Proof. repeat split; vm_compute; reflexivity. Qed.

(** With two stored records for one postcode the first is matched and the
    second is taken for stale: the postcode is updated and deleted at once,
    and the delete removes both records. *)
Example duplicate_rows_two_buckets :
  let conn := mkConn [mkRow 0 "de" "10115" (14, 53)%Q; mkRow 0 "de" "10115" (14, 53)%Q] [] in
  let r := commit decimal_float de_collector conn plain_analyzer None [] in
  (_compute_changes de_collector conn).2 =
    ([], ["10115"], [(((0 + 13) / 1)%Q, ((0 + 52) / 1)%Q, "10115")]) /\
  location_postcode r.1.1.2 = [] /\
  (_compute_changes de_collector r.1.1.2).2 =
    ([("10115", ((0 + 13) / 1)%Q, ((0 + 52) / 1)%Q)], [], []).
Proof. repeat split. Qed.
End Samples.

(** ** Version strings, beyond the round trip *)

Section VersionMore.
Import Version.

Lemma str_int_neg p :
  str_int (Z.neg p) = String "-" (NilEmpty.string_of_uint (Pos.to_uint p)).
Proof.
  unfold str_int. simpl. pose proof (DecimalPos.Unsigned.to_uint_nonnil p) as Hnn.
  unfold NilZero.string_of_uint. now destruct (Pos.to_uint p).
Qed.

Lemma rstrip_cons_digits c s :
  is_space c = false -> digits_only s = true -> rstrip (String c s) = String c s.
Proof.
  intros Hc Hs. cbn [rstrip]. rewrite (rstrip_digits s Hs), Hc. now destruct s.
Qed.

(** [int(str(n))] is [n], for every integer. *)
Lemma py_int_str_int_all n : py_int (str_int n) = Ok n.
Proof.
  destruct n as [|p|p]; [reflexivity | now apply py_int_str_int |].
  rewrite str_int_neg. unfold py_int, strip.
  pose proof (string_of_uint_digits (Pos.to_uint p)) as Hd.
  cbn [lstrip]. change (is_space "-") with false. cbv iota.
  rewrite (rstrip_cons_digits "-" _ eq_refl Hd).
  pose proof (DecimalPos.Unsigned.to_uint_nonnil p) as Hnn.
  assert (Hi : int_digits (NilEmpty.string_of_uint (Pos.to_uint p)) false =
               Some (Pos.to_uint p)).
  { destruct (Pos.to_uint p); try congruence; simpl;
      now rewrite int_digits_string_of_uint. }
  rewrite Hi. unfold Z.of_uint. now rewrite DecimalPos.Unsigned.of_to.
Qed.

Lemma str_int_dot_free n : sep_free "." (str_int n) = true.
Proof.
  destruct n as [|p|p]; [reflexivity | |].
  - apply digits_sep_free; [reflexivity | now apply str_int_digits].
  - rewrite str_int_neg. simpl. apply digits_sep_free; [reflexivity|].
    apply string_of_uint_digits.
Qed.

End VersionMore.

Section VersionMore2.
Import Version.

Lemma split_app_sep sep s t :
  split sep (String.append s (String sep t)) = split sep s ++ split sep t.
Proof.
  induction s as [|c r IH].
  - rewrite append_nil_l. cbn [split]. now rewrite Ascii.eqb_refl.
  - rewrite append_cons. cbn [split]. rewrite IH. destruct (Ascii.eqb c sep); [reflexivity|].
    destruct (split sep r) as [|h tl] eqn:E; [|reflexivity].
    exfalso. destruct r; simpl in E; [discriminate|].
    destruct (Ascii.eqb _ _); [discriminate|]. now destruct (split sep r).
Qed.

Lemma str_dotted a b (r : string) :
  sep_free "." r = true ->
  split "." (String.append (str_int a) (String "." (String.append (str_int b) (String "." r)))) =
  [str_int a; str_int b; r].
Proof.
  intros Hr. rewrite !split_append by apply str_int_dot_free.
  now rewrite (split_sep_free _ _ Hr).
Qed.

Lemma str_release a b c :
  __str__ (mkVersion a b c None) =
  String.append (str_int a) (String "." (String.append (str_int b) (String "." (str_int c)))).
Proof.
  unfold __str__; cbn [major minor patch_level db_patch_level].
  now rewrite !append_cons, !append_nil_l.
Qed.

Lemma dash_dot_free s t :
  sep_free "." s = true -> sep_free "." t = true ->
  sep_free "." (String.append s (String "-" t)) = true.
Proof. intros Hs Ht. rewrite sep_free_append, Hs. simpl. exact Ht. Qed.

(** The round trip, for any major and minor. *)
Lemma parse_str_any a b c d :
  (0 <= c)%Z -> (0 <= d)%Z ->
  parse_version (__str__ (mkVersion a b c (Some d))) = Ok (mkVersion a b c (Some d)).
Proof.
  intros Hc Hd. rewrite str_full. unfold parse_version.
  rewrite str_dotted by (apply dash_dot_free; apply str_int_dot_free).
  cbn [nth_error firstn app].
  rewrite split_append by (apply digits_sep_free; [reflexivity | now apply str_int_digits]).
  rewrite split_sep_free by (apply digits_sep_free; [reflexivity | now apply str_int_digits]).
  cbn [app ints]. now rewrite !py_int_str_int_all.
Qed.


Lemma ints_empty_third a b l :
  ints (str_int a :: str_int b :: "" :: l) = Raise ValueError.
Proof. cbn [ints]. now rewrite !py_int_str_int_all. Qed.

(** A negative patch level or database patch level prints with a second
    dash, and the empty string before it is no integer. *)
Lemma parse_str_negative a b c d :
  (c < 0 \/ d < 0)%Z ->
  parse_version (__str__ (mkVersion a b c (Some d))) = Raise ValueError.
Proof.
  intros Hneg. rewrite str_full. unfold parse_version.
  rewrite str_dotted by (apply dash_dot_free; apply str_int_dot_free).
  cbn [nth_error firstn app].
  destruct (Z_lt_le_dec c 0) as [Hc|Hc].
  - destruct c as [|p|p]; try lia. rewrite (str_int_neg p).
    rewrite append_cons. cbn [split]. change (Ascii.eqb "-" "-") with true. cbv iota.
    cbn [app]. now rewrite ints_empty_third.
  - destruct d as [|q|q]; try lia. rewrite (str_int_neg q).
    rewrite split_append
      by (apply digits_sep_free; [reflexivity | now apply str_int_digits]).
    cbn [split]. change (Ascii.eqb "-" "-") with true. cbv iota.
    cbn [app ints]. rewrite !py_int_str_int_all. reflexivity.
Qed.

(** The three-part string: with a patch level that is not negative the
    constructor gets three arguments, with a negative one [int] fails on
    the empty string before the dash. *)
Lemma parse_release a b c :
  parse_version (__str__ (mkVersion a b c None)) =
  Raise (if (c <? 0)%Z then ValueError else TypeError).
Proof.
  rewrite str_release. unfold parse_version.
  rewrite str_dotted by apply str_int_dot_free.
  cbn [nth_error firstn app].
  destruct (Z.ltb_spec c 0) as [Hc|Hc].
  - destruct c as [|p|p]; try lia. rewrite (str_int_neg p).
    cbn [split]. change (Ascii.eqb "-" "-") with true. cbv iota.
    cbn [app]. now rewrite ints_empty_third.
  - rewrite split_sep_free
      by (apply digits_sep_free; [reflexivity | now apply str_int_digits]).
    cbn [app ints]. now rewrite !py_int_str_int_all.
Qed.

(** X1.  [parse_version] gives back the version [__str__] printed exactly
    when the version has a database patch level and neither it nor the
    patch level is negative; major and minor may have any sign. *)
Theorem parse_version_str_iff (v : NominatimVersion) :
  parse_version (__str__ v) = Ok v <->
  exists d, db_patch_level v = Some d /\ (0 <= patch_level v)%Z /\ (0 <= d)%Z.
Proof.
  destruct v as [a b c [d|]]; cbn [db_patch_level patch_level]; split.
  - intros H. exists d. split; [reflexivity|].
    destruct (Z_lt_le_dec c 0) as [Hc|Hc];
      [rewrite parse_str_negative in H by (now left); discriminate H|].
    destruct (Z_lt_le_dec d 0) as [Hd|Hd];
      [rewrite parse_str_negative in H by (now right); discriminate H|].
    now split.
  - intros (d' & [= <-] & Hc & Hd). now apply parse_str_any.
  - intros H. rewrite parse_release in H. discriminate H.
  - intros (d' & [=] & _).
Qed.

(** X2.  The string of a version whose patch level or database patch
    level is negative is rejected with [ValueError]. *)
Theorem parse_version_negative_level (v : NominatimVersion) (d : Z) :
  db_patch_level v = Some d -> (patch_level v < 0 \/ d < 0)%Z ->
  parse_version (__str__ v) = Raise ValueError.
Proof.
  destruct v as [a b c dd]; simpl. intros -> Hneg. now apply parse_str_negative.
Qed.

(** X3.  [parse_version] never accepts what [release_version] returns: the
    constructor is called with three arguments ([TypeError]), or, with a
    negative patch level, [int] fails first ([ValueError]). *)
Theorem parse_version_release_version (v : NominatimVersion) :
  parse_version (release_version v) =
  Raise (if (patch_level v <? 0)%Z then ValueError else TypeError).
Proof. destruct v as [a b c d]. exact (parse_release a b c). Qed.

Lemma firstn_app_long {A} n (l l' : list A) :
  n <= length l -> firstn n (l ++ l') = firstn n l.
Proof.
  intros H. rewrite firstn_app. replace (n - length l) with 0 by lia.
  simpl. apply app_nil_r.
Qed.

(** X4.  What follows the third dot of a version string is not read. *)
Theorem parse_version_ignores_tail (s junk : string) :
  3 <= length (split "." s) ->
  parse_version (String.append s (String "." junk)) = parse_version s.
Proof.
  intros Hlen. unfold parse_version. rewrite split_app_sep.
  destruct (split "." s) as [|p0 [|p1 [|p2 tl]]]; simpl in Hlen; try lia.
  reflexivity.
Qed.

(** X5.  Versions with a database patch level, it and the patch level not
    negative, that print alike are equal. *)
Theorem str_injective (v v' : NominatimVersion) (d d' : Z) :
  db_patch_level v = Some d -> (0 <= patch_level v)%Z -> (0 <= d)%Z ->
  db_patch_level v' = Some d' -> (0 <= patch_level v')%Z -> (0 <= d')%Z ->
  __str__ v = __str__ v' -> v = v'.
Proof.
  destruct v as [a b c dd], v' as [a' b' c' dd']; simpl.
  intros -> Hc Hd -> Hc' Hd' E.
  pose proof (parse_str_any a b c d Hc Hd) as H.
  rewrite E, (parse_str_any a' b' c' d' Hc' Hd') in H. now injection H as -> -> -> ->.
Qed.

End VersionMore2.

(** ** What [add] collects *)

Section AddMore.
Import Postcodes.
Context {Match : Type}.
Implicit Types (self : _PostcodeCollector Match) (coll : gmap string PointsCentroid).

Lemma add_normalized_lookup coll n x y k :
  is_Some (add_normalized coll n x y !! k) <->
  is_Some (coll !! k) \/ (n = Some k /\ k <> "").
Proof.
  unfold add_normalized. destruct n as [s|].
  - destruct (String.eqb_spec s "") as [->|Hne].
    + split; [auto|]. intros [H|[[= <-] H]]; [exact H | congruence].
    + unfold collected_iadd. destruct (decide (s = k)) as [->|Hk].
      * rewrite lookup_insert_eq. split; [intros _; right; auto | eauto].
      * rewrite lookup_insert_ne by exact Hk.
        split; [auto|]. intros [H|[[= E] _]]; [exact H | congruence].
  - split; [auto|]. now intros [H|[[=] _]].
Qed.

Lemma add_all_uncached_keys m rows k : forall self,
  matcher self = Some m ->
  is_Some (collected (add_all add_uncached rows self) !! k) <->
  is_Some (collected self !! k) \/
  (k <> "" /\ exists p x y, (p, x, y) ∈ rows /\ match_normalize m p = Some k).
Proof.
  unfold add_all. induction rows as [|[[p x] y] rows IH]; intros self Hm; cbn [fold_left].
  - split; [auto|]. intros [H|(_ & p & x & y & Hin & _)]; [exact H|].
    now apply elem_of_nil in Hin.
  - rewrite IH by (unfold add_uncached; now rewrite Hm).
    unfold add_uncached at 1. rewrite Hm. cbn [collected].
    rewrite add_normalized_lookup. split.
    + intros [[H|[H1 H2]]|(Hk & p' & x' & y' & Hin & Hn)].
      * now left.
      * right. split; [exact H2|]. exists p, x, y. split; [apply list_elem_of_here | exact H1].
      * right. split; [exact Hk|]. exists p', x', y'. split; [|exact Hn].
        now apply list_elem_of_further.
    + intros [H|(Hk & p' & x' & y' & Hin & Hn)]; [now left; left|].
      apply elem_of_cons in Hin as [[= -> -> ->]|Hin].
      * left; right. now split.
      * right. split; [exact Hk|]. now exists p', x', y'.
Qed.

(** X6.  After any sequence of [add] calls on a collector with a matcher,
    the collected postcodes are those collected before and the non-empty
    normalized forms of the raw postcodes that the matcher accepts:
    nothing else becomes a key, and no accepted postcode is lost. *)
Theorem add_all_keys m rows self k :
  matcher self = Some m -> cache_coherent self ->
  is_Some (collected (add_all add rows self) !! k) <->
  is_Some (collected self !! k) \/
  (k <> "" /\ exists p x y, (p, x, y) ∈ rows /\ match_normalize m p = Some k).
Proof.
  intros Hm Hcoh.
  rewrite (add_all_uncached rows self self Hcoh eq_refl eq_refl eq_refl).
  now apply add_all_uncached_keys.
Qed.
End AddMore.

Section TableMore.
Import Postcodes.

(** Distinct (country, postcode) pairs give distinct postcodes per country. *)
Lemma unique_pairs_table (T : list PostcodeRow) :
  NoDup (map (fun r => (country_code r, postcode r)) T) -> unique_table T.
Proof.
  intros Hnd c. unfold unique_postcodes, stored_postcodes.
  rewrite select_postcodes_eq, key_row_tuple.
  induction T as [|r T IH]; cbn [List.filter map]; [constructor|].
  cbn [map] in Hnd. apply NoDup_cons in Hnd as [Hr Hnd].
  unfold of_country at 1. destruct (String.eqb_spec (country_code r) c) as [E|E];
    [|now apply IH].
  cbn [map]. apply NoDup_cons. split; [|now apply IH].
  intros Hin. apply Hr. rewrite map_fmap in Hin.
  apply list_elem_of_fmap in Hin as (r' & Hp & [Hr' Hc']%elem_of_List_filter).
  apply String.eqb_eq in Hc'. rewrite map_fmap. apply list_elem_of_fmap.
  exists r'. split; [congruence | exact Hr'].
Qed.
End TableMore.

(** ** What the external merge adds *)

Section MergeMore.
Import Postcodes.
Context {Match : Type} (py_float : string -> option pyfloat).
Implicit Types (self : _PostcodeCollector Match) (coll : gmap string PointsCentroid).

(** A postcode that enters the mapping in the merge has one point, with
    coordinates that passed [_to_float]. *)
Lemma external_rows_new_key analyzer rows k acc : forall self log,
  collected self !! k = None ->
  collected (external_rows py_float analyzer rows self log).1.1 !! k = Some acc ->
  exists x y, acc = iadd init (x, y) /\
    (- 180 < x)%Q /\ (x < 180)%Q /\ (- 90 < y)%Q /\ (y < 90)%Q.
Proof.
  induction rows as [|row rows IH]; intros self log Hk Hacc; cbn [external_rows] in Hacc;
    [cbn [fst] in Hacc; congruence|].
  destruct (row !! "postcode") as [pc|]; [|cbn [fst] in Hacc; congruence];
    destruct (row !! "lat") as [lat|]; try (cbn [fst] in Hacc; congruence);
    destruct (row !! "lon") as [lon|]; try (cbn [fst] in Hacc; congruence).
  destruct (normalize_value analyzer pc) as [postcode|e];
    [|cbn [fst] in Hacc; congruence].
  destruct (collected self !! postcode) eqn:Hfresh;
    [now apply (IH self log)|].
  destruct lon as [slon|]; [|cbn [_to_float fst] in Hacc; congruence].
  destruct (to_float_str py_float slon 180) as [[x Hx]|Hx]; rewrite Hx in Hacc;
    [|eapply IH; eassumption].
  destruct lat as [slat|]; [|cbn [_to_float fst] in Hacc; congruence].
  destruct (to_float_str py_float slat 90) as [[y Hy]|Hy]; rewrite Hy in Hacc;
    [|eapply IH; eassumption].
  destruct (decide (postcode = k)) as [E|E].
  - exists x, y.
    apply to_float_ok in Hx as (_ & Hx1 & Hx2). apply to_float_ok in Hy as (_ & Hy1 & Hy2).
    split; [|auto].
    match type of Hacc with context [external_rows _ _ _ ?s ?l] =>
      pose proof (external_rows_keeps py_float analyzer rows k (iadd init (x, y)) s l) as Hkeep
    end.
    rewrite Hkeep in Hacc; [congruence|].
    cbn [collected]. unfold collected_iadd. rewrite E, lookup_insert_eq, Hk. reflexivity.
  - eapply IH; [|exact Hacc]. cbn [collected]. unfold collected_iadd.
    now rewrite lookup_insert_ne.
Qed.

(** X7.  A postcode that only the external file brings in has an
    accumulator of exactly one point, and that point lies strictly inside
    (-180, 180) x (-90, 90): later rows of the file for the same postcode
    are not added. *)
Theorem external_adds_single_points self analyzer project_dir log k acc :
  collected self !! k = None ->
  collected (merge_external py_float self analyzer project_dir log).1.1 !! k = Some acc ->
  exists x y, acc = iadd init (x, y) /\
    (- 180 < x)%Q /\ (x < 180)%Q /\ (- 90 < y)%Q /\ (y < 90)%Q.
Proof.
  intros Hk. destruct project_dir as [dir|]; [|simpl; congruence].
  unfold merge_external, _update_from_external.
  destruct (_open_external self dir log) as [[f|] log']; [|simpl; congruence].
  now apply external_rows_new_key.
Qed.

(** The merge reads the collector's country and mapping only. *)
Lemma external_rows_matcher analyzer rows (m' : option (CountryPostcodeMatcher Match)) cache' :
  forall self log,
  let r := external_rows py_float analyzer rows self log in
  let r' := external_rows py_float analyzer rows
              (mkCollector (country self) m' (collected self) cache') log in
  collected r.1.1 = collected r'.1.1 /\ r.1.2 = r'.1.2 /\ r.2 = r'.2.
Proof.
  induction rows as [|row rows IH]; intros self log; cbn [external_rows collected country];
    [easy|].
  destruct (row !! "postcode") as [pc|]; [|easy];
    destruct (row !! "lat") as [lat|]; try easy;
    destruct (row !! "lon") as [lon|]; try easy.
  destruct (normalize_value analyzer pc) as [postcode|e]; [|easy].
  destruct (collected self !! _); [apply IH|].
  destruct (_to_float py_float lon 180) as [x|[]]; try easy; try apply IH.
  destruct (_to_float py_float lat 90) as [y|[]]; try easy; try apply IH.
Qed.

(** X8.  The external merge consults neither the matcher of the country
    nor the normalization cache: with another matcher, or none, it
    collects the same mapping, writes the same log and ends the same
    way. *)
Theorem external_merge_ignores_matcher self analyzer project_dir log
    (m' : option (CountryPostcodeMatcher Match)) cache' :
  let r := merge_external py_float self analyzer project_dir log in
  let r' := merge_external py_float
              (mkCollector (country self) m' (collected self) cache')
              analyzer project_dir log in
  collected r.1.1 = collected r'.1.1 /\ r.1.2 = r'.1.2 /\ r.2 = r'.2.
Proof.
  destruct project_dir as [dir|]; [|easy].
  unfold merge_external, _update_from_external, _open_external. cbn [country].
  repeat (destruct (dir !! _)); try easy; apply external_rows_matcher.
Qed.


End MergeMore.

(** ** The table after [commit] *)

Section CommitPost.
Import Postcodes.
Context {Match : Type} (py_float : string -> option pyfloat).
Implicit Types (self : _PostcodeCollector Match) (coll : gmap string PointsCentroid).

(** The table after the statements of the diff, read against the mapping
    the diff was computed from. *)
Lemma executed_rows_collected self conn :
  unique_postcodes (country self) (location_postcode conn) ->
  let conn1 := execute_changes (country self) (_compute_changes self conn).2 conn in
  unique_postcodes (country self) (location_postcode conn1) /\
  (forall k, k ∈ stored_postcodes (country self) (location_postcode conn1) <->
             is_Some (collected self !! k)) /\
  (forall k x y,
     (k, x, y) ∈ select_postcodes (country self) (location_postcode conn1) ->
     exists acc, collected self !! k = Some acc /\
       moved x y (centroid acc).1 (centroid acc).2 = false).
Proof.
  intros Hnd. rewrite (compute_changes_closed self conn Hnd). cbv zeta. cbn [snd].
  destruct (changes_after_changes (collected self) (country self)
              (location_postcode conn) Hnd) as (Hnd1 & Hrows1 & Hrem).
  cbv zeta in Hnd1, Hrows1, Hrem.
  rewrite <- execute_changes_table in Hnd1, Hrows1, Hrem.
  set (conn1 := execute_changes _ _ conn) in *.
  split; [exact Hnd1|]. split.
  - intros k. unfold stored_postcodes. split.
    + rewrite map_fmap. intros (row & -> & Hrow)%list_elem_of_fmap.
      destruct (Hrows1 row Hrow) as [_ Ha]. unfold absent in Ha.
      destruct (collected self !! key row); [eauto | discriminate].
    + intros [acc Hacc].
      assert (H : remaining (collected self)
                (select_postcodes (country self) (location_postcode conn1)) !! k = None)
        by (rewrite Hrem; apply lookup_empty).
      unfold remaining in H. rewrite lookup_fold_delete in H.
      case_decide as Hk; [exact Hk | congruence].
  - intros k x y Hrow. destruct (Hrows1 _ Hrow) as [Hu Ha].
    unfold absent, key in Ha. simpl in Ha.
    destruct (collected self !! k) as [acc|] eqn:E; [|discriminate].
    exists acc. split; [reflexivity|].
    apply (proj1 (update_of_None _ _) Hu acc). exact E.
Qed.

Lemma commit_normal_shape self conn analyzer project_dir log self1 conn1 log1 :
  commit py_float self conn analyzer project_dir log = (self1, conn1, log1, Normal) ->
  let merged := (merge_external py_float self analyzer project_dir []).1.1 in
  country merged = country self /\
  (merge_external py_float self analyzer project_dir []).2 = Normal /\
  conn1 = execute_changes (country self) (_compute_changes merged conn).2 conn.
Proof.
  intros Hc. unfold commit in Hc.
  rewrite (merge_external_log py_float self analyzer project_dir log) in Hc.
  pose proof (merge_external_frame py_float self analyzer project_dir []) as (Hco & _).
  destruct (merge_external py_float self analyzer project_dir []) as [[merged l0] st].
  cbv zeta in *. cbn [fst snd] in *.
  destruct st as [|e]; [|discriminate Hc].
  destruct (_compute_changes merged conn) as [reset [[a d] u]]. cbn [snd].
  rewrite Hco in Hc. split; [exact Hco|]. split; [reflexivity|]. congruence.
Qed.

(** X10.  After a [commit] that returns, on a table with distinct
    postcodes for the country: the postcodes stored for the country are
    still distinct, they are exactly the postcodes of the merged mapping
    (collected from the source rows and the external file), and every
    stored point passes the test of [_compute_changes] against the
    centroid of its accumulator. *)
Theorem commit_stores_collected self conn analyzer project_dir log self1 conn1 log1 :
  unique_postcodes (country self) (location_postcode conn) ->
  commit py_float self conn analyzer project_dir log = (self1, conn1, log1, Normal) ->
  let merged := (merge_external py_float self analyzer project_dir []).1.1 in
  unique_postcodes (country self) (location_postcode conn1) /\
  (forall k, k ∈ stored_postcodes (country self) (location_postcode conn1) <->
             is_Some (collected merged !! k)) /\
  (forall k x y,
     (k, x, y) ∈ select_postcodes (country self) (location_postcode conn1) ->
     exists acc, collected merged !! k = Some acc /\
       moved x y (centroid acc).1 (centroid acc).2 = false).
Proof.
  intros Hnd Hc merged.
  destruct (commit_normal_shape self conn analyzer project_dir log self1 conn1 log1 Hc)
    as (Hco & _ & ->). fold merged in Hco |- *.
  rewrite <- Hco in *. now apply executed_rows_collected.
Qed.
End CommitPost.

Section CommitRows.
Import Postcodes.
Context {Match : Type} (py_float : string -> option pyfloat).
Implicit Types (self : _PostcodeCollector Match) (coll : gmap string PointsCentroid).

(** An update list made of recomputed centroids either leaves a row as it
    is, or makes it the re-indexed row at the centroid of its postcode. *)
Lemma apply_updates_row coll c l :
  (forall u, u ∈ l -> exists acc, coll !! u.2 = Some acc /\
      u = ((centroid acc).1, (centroid acc).2, u.2)) ->
  forall r, country_code r = c ->
    (apply_updates c l r = r /\ postcode r ∉ map snd l) \/
    (exists acc, coll !! postcode r = Some acc /\ postcode r ∈ map snd l /\
       apply_updates c l r = mkRow 2 c (postcode r) ((centroid acc).1, (centroid acc).2)).
Proof.
  unfold apply_updates. induction l as [|u l IH]; intros Hl r Hr.
  - left. split; [reflexivity | apply not_elem_of_nil].
  - cbn [fold_left].
    assert (Hl' : forall u', u' ∈ l -> exists acc, coll !! u'.2 = Some acc /\
              u' = ((centroid acc).1, (centroid acc).2, u'.2))
      by (intros u' Hu'; apply Hl; now apply list_elem_of_further).
    destruct (Hl u (list_elem_of_here _ _)) as (acc & Hacc & Hu).
    destruct (decide (postcode r = u.2)) as [E|E].
    + right. exists acc. split; [now rewrite E|].
      split; [cbn [map]; rewrite E; apply list_elem_of_here|].
      rewrite (update_row_hit c r u Hr E).
      destruct (IH Hl' (mkRow 2 c (postcode r) (u.1.1, u.1.2)) eq_refl)
        as [[Hg _]|(acc' & Hacc' & _ & Hg)]; rewrite Hg.
      * now rewrite Hu.
      * simpl in Hacc' |- *. rewrite E in Hacc'. congruence.
    + rewrite (update_row_miss c r u E).
      destruct (IH Hl' r Hr) as [[Hg Hn]|(acc' & Hacc' & Hin & Hg)].
      * left. split; [exact Hg|]. cbn [map]. rewrite not_elem_of_cons. now split.
      * right. exists acc'. split; [exact Hacc'|]. split; [|exact Hg].
        cbn [map]. now apply list_elem_of_further.
Qed.

Lemma executed_rows_kinds self conn r :
  unique_postcodes (country self) (location_postcode conn) ->
  r ∈ location_postcode
        (execute_changes (country self) (_compute_changes self conn).2 conn) ->
  country_code r = country self ->
  row_after (collected self) (country self) (location_postcode conn) r.
Proof.
  intros Hnd Hr Hc.
  rewrite (compute_changes_closed self conn Hnd) in Hr. cbv zeta in Hr. cbn [snd] in Hr.
  rewrite execute_changes_table in Hr.
  set (c := country self) in *. set (coll := collected self) in *.
  set (T := location_postcode conn) in *.
  set (rows := select_postcodes c T) in *.
  set (a := map add_of (map_to_list (remaining coll rows))) in *.
  set (d := List.filter (absent coll) (map key rows)) in *.
  set (u := omap (update_of coll) rows) in *.
  assert (Hin : r ∈ List.filter (of_country c)
            (update_postcodes_rows c u (delete_postcodes c d (insert_postcodes c a T)))).
  { apply elem_of_List_filter. split; [exact Hr|]. unfold of_country. rewrite Hc.
    apply String.eqb_refl. }
  unfold a, d, u, rows in Hin. rewrite rows_after_changes in Hin.
  fold rows in Hin. fold a d u in Hin.
  rewrite map_fmap in Hin. apply list_elem_of_fmap in Hin as (r0 & -> & Hr0).
  assert (Hgood : forall u', u' ∈ u -> exists acc, coll !! u'.2 = Some acc /\
            u' = ((centroid acc).1, (centroid acc).2, u'.2)).
  { intros u' (row & _ & Hu)%list_elem_of_omap.
    apply update_of_Some in Hu as (acc & Hacc & _ & ->). simpl. eauto. }
  assert (Hkeys : map key rows = map postcode (List.filter (of_country c) T))
    by apply key_row_tuple.
  assert (Hupd : forall k, k ∈ map snd u -> k ∈ map key rows).
  { intros k Hk. eapply elem_of_sublist; [exact Hk | apply update_keys_sublist]. }
  pose proof (apply_updates_postcode c u r0) as Hp.
  apply elem_of_app in Hr0 as [Hr0|Hr0].
  - apply elem_of_List_filter in Hr0 as [Hr0 Hk]. apply kept_true in Hk.
    apply elem_of_List_filter in Hr0 as [Hr0 Hc0]. apply String.eqb_eq in Hc0.
    assert (Hstored : postcode r0 ∈ map key rows).
    { rewrite Hkeys, map_fmap. apply list_elem_of_fmap_2.
      apply elem_of_List_filter. split; [exact Hr0|]. unfold of_country.
      rewrite Hc0. apply String.eqb_refl. }
    destruct (coll !! postcode r0) as [acc|] eqn:Eacc.
    2:{ exfalso. apply Hk. apply elem_of_to_delete. now split. }
    destruct (apply_updates_row coll c u Hgood r0 Hc0)
      as [[Heq Hn]|(acc' & Hacc' & Hin' & Heq)]; rewrite Heq.
    + exists acc. split; [exact Eacc|]. left. split; [exact Hr0|].
      destruct (update_of coll (row_tuple r0)) as [u'|] eqn:Eu.
      * exfalso. apply Hn. rewrite map_fmap. apply list_elem_of_fmap.
        exists u'. split.
        -- apply update_of_Some in Eu as (? & _ & _ & ->). reflexivity.
        -- apply list_elem_of_omap. exists (row_tuple r0). split; [|exact Eu].
           unfold rows. rewrite select_postcodes_eq, map_fmap.
           apply list_elem_of_fmap_2. apply elem_of_List_filter. split; [exact Hr0|].
           unfold of_country. rewrite Hc0. apply String.eqb_refl.
      * apply (proj1 (update_of_None _ _) Eu acc). exact Eacc.
    + simpl. exists acc'. split; [exact Hacc'|]. right; left. split; [reflexivity|].
      assert (Hk' : postcode r0 ∈ update_keys u) by exact Hin'.
      apply elem_of_update_keys in Hk' as (x & y & acc2 & Hrow & Hacc2 & Hm).
      assert (acc2 = acc') as -> by congruence. eauto.
  - rewrite map_fmap in Hr0. apply list_elem_of_fmap in Hr0 as (t & -> & Ht).
    assert (Hk : key t ∈ add_keys a)
      by (unfold add_keys; rewrite map_fmap; now apply list_elem_of_fmap_2).
    apply elem_of_add_keys in Hk as [[acc Hacc] Hnin].
    unfold a in Ht. rewrite map_fmap in Ht.
    apply list_elem_of_fmap in Ht as ([k acc0] & -> & Hkv).
    apply elem_of_map_to_list in Hkv. unfold remaining in Hkv.
    rewrite lookup_fold_delete in Hkv. case_decide; [discriminate|].
    assert (Hnin' : k ∉ map key rows) by exact Hnin.
    destruct (apply_updates_row coll c u Hgood (new_row c (add_of (k, acc0))) eq_refl)
      as [[Heq Hn]|(acc' & Hacc' & Hin' & Heq)].
    + rewrite Heq. exists acc0. split; [exact Hkv|]. right; right.
      split; [reflexivity | exact Hnin'].
    + exfalso. apply Hnin'. apply Hupd. exact Hin'.
Qed.

(** X11.  After a [commit] that returns, every row of the country is of
    one of three kinds: a row of the old table that the test did not find
    moved, left as it was; a row at the centroid with [indexed_status] 2,
    for a stored postcode found moved; or a row at the centroid with
    [indexed_status] 1, for a postcode that was not stored. *)
Theorem commit_rows_kinds self conn analyzer project_dir log self1 conn1 log1 r :
  unique_postcodes (country self) (location_postcode conn) ->
  commit py_float self conn analyzer project_dir log = (self1, conn1, log1, Normal) ->
  r ∈ location_postcode conn1 -> country_code r = country self ->
  row_after (collected (merge_external py_float self analyzer project_dir []).1.1)
    (country self) (location_postcode conn) r.
Proof.
  intros Hnd Hc Hr Hcc.
  destruct (commit_normal_shape py_float self conn analyzer project_dir log self1 conn1 log1 Hc)
    as (Hco & _ & ->).
  rewrite <- Hco in *. now apply executed_rows_kinds.
Qed.
End CommitRows.

Section CountedMore.
Import Postcodes.
Context {Match : Type} (py_float : string -> option pyfloat).
Implicit Types (self : _PostcodeCollector Match).

Lemma add_all_counted rows : forall self,
  counted (collected self) -> counted (collected (add_all add rows self)).
Proof.
  unfold add_all. induction rows as [|[[p x] y] rows IH]; intros self Hc; cbn [fold_left];
    [exact Hc|].
  apply IH. now apply add_counted.
Qed.

Lemma merge_external_counted self analyzer project_dir log :
  counted (collected self) ->
  counted (collected (merge_external py_float self analyzer project_dir log).1.1).
Proof.
  intros Hc. destruct project_dir as [dir|]; cbn [merge_external]; [|exact Hc].
  unfold _update_from_external.
  destruct (_open_external self dir log) as [[f|] l0]; [|exact Hc].
  now apply external_rows_counted.
Qed.

(** X17.  Every accumulator whose centroid [commit] computes holds at
    least one point: the mapping is created empty, [add] and the external
    merge create an accumulator only together with its first point. *)
Theorem committed_centroids_counted c (m : option (CountryPostcodeMatcher Match))
    rows analyzer project_dir log :
  counted (collected (merge_external py_float (add_all add rows (new c m))
                                     analyzer project_dir log).1.1).
Proof.
  apply merge_external_counted, add_all_counted. cbn [new collected]. apply counted_empty.
Qed.
End CountedMore.

(** ** The table after [update_postcodes] *)

Section DriverMore.
Import Postcodes.
Context {Match : Type} (py_float : string -> option pyfloat)
        (get_matcher : string -> option (CountryPostcodeMatcher Match)).
Implicit Types (st : DriverState Match) (col : _PostcodeCollector Match).

Lemma stores_filter c coll T T' :
  List.filter (of_country c) T' = List.filter (of_country c) T ->
  stores c coll T -> stores c coll T'.
Proof.
  intros Hf. unfold stores, unique_postcodes, stored_postcodes.
  now rewrite (select_postcodes_filter c T T' Hf).
Qed.

Lemma unique_filter c T T' :
  List.filter (of_country c) T' = List.filter (of_country c) T ->
  unique_postcodes c T -> unique_postcodes c T'.
Proof.
  intros Hf. unfold unique_postcodes, stored_postcodes.
  now rewrite (select_postcodes_filter c T T' Hf).
Qed.

Lemma commit_stores col conn analyzer project_dir log self1 conn1 log1 :
  unique_postcodes (country col) (location_postcode conn) ->
  commit py_float col conn analyzer project_dir log = (self1, conn1, log1, Normal) ->
  stores (country col)
         (collected (merge_external py_float col analyzer project_dir []).1.1)
         (location_postcode conn1).
Proof.
  intros Hnd Hc.
  destruct (commit_normal_shape py_float col conn analyzer project_dir log self1 conn1 log1 Hc)
    as (Hco & _ & ->). cbv zeta in Hco.
  rewrite <- Hco in *. now apply executed_rows_collected.
Qed.

Lemma stream_loop_app analyzer project_dir pre rest : forall st,
  stream_loop py_float get_matcher analyzer project_dir (pre ++ rest) st =
  match stream_loop py_float get_matcher analyzer project_dir pre st with
  | (st1, Normal) => stream_loop py_float get_matcher analyzer project_dir rest st1
  | (st1, Raised e) => (st1, Raised e)
  end.
Proof.
  induction pre as [|[[[cc pc] x] y] pre IH]; intros st; [reflexivity|].
  cbn [app stream_loop].
  destruct (collector st) as [col|] eqn:E.
  - destruct (negb (String.eqb cc (country col))).
    + destruct (commit_open py_float analyzer project_dir st) as [[c' l'] [|e]];
        [apply IH | reflexivity].
    + apply IH.
  - destruct (commit_open py_float analyzer project_dir st) as [[c' l'] [|e]];
      [apply IH | reflexivity].
Qed.

Lemma stream_loop_same analyzer project_dir rows : forall col todo conn log,
  (forall r, r ∈ rows -> r.1.1.1 = country col) ->
  stream_loop py_float get_matcher analyzer project_dir rows
              (mkDriver (Some col) todo conn log) =
  (mkDriver (Some (add_all add (map point rows) col)) todo conn log, Normal).
Proof.
  induction rows as [|[[[cc pc] x] y] rows IH]; intros col todo conn log Hall;
    [reflexivity|].
  cbn [stream_loop collector todo_countries Postcodes.conn Postcodes.log].
  pose proof (Hall (cc, pc, x, y) (list_elem_of_here _ _)) as Hcc. cbn [fst] in Hcc.
  rewrite Hcc, String.eqb_refl. cbn [negb].
  rewrite IH.
  - reflexivity.
  - intros r Hr. rewrite add_country. apply Hall. now apply list_elem_of_further.
Qed.

Lemma stream_loop_todo analyzer project_dir rows : forall st,
  todo_countries (stream_loop py_float get_matcher analyzer project_dir rows st).1
    ⊆ todo_countries st.
Proof.
  induction rows as [|[[[cc pc] x] y] rows IH]; intros st; cbn [stream_loop]; [reflexivity|].
  destruct (collector st) as [col|] eqn:E.
  - destruct (negb (String.eqb cc (country col))).
    + destruct (commit_open py_float analyzer project_dir st) as [[c' l'] [|e]].
      * etransitivity; [apply IH|]. cbn [todo_countries].
        now apply subseteq_difference_l.
      * reflexivity.
    + etransitivity; [apply IH|]. reflexivity.
  - destruct (commit_open py_float analyzer project_dir st) as [[c' l'] [|e]].
    + etransitivity; [apply IH|]. cbn [todo_countries].
      now apply subseteq_difference_l.
    + reflexivity.
Qed.

(** From a state whose open collector is for another country, with no
    source row of [c] left and [c] not among the stale countries, the pass
    leaves country [c] alone. *)
Lemma pass_from_quiet c analyzer project_dir rows st :
  c ∉ map (fun r => r.1.1.1) rows ->
  other_country c (collector st) ->
  c ∉ todo_countries st ->
  let r := pass_from py_float get_matcher analyzer project_dir rows st in
  quiet c (conn st, log st) (r.1.1, r.1.2).
Proof.
  intros Hrows Hother Htodo. unfold pass_from.
  pose proof (stream_loop_quiet py_float get_matcher c analyzer project_dir rows st
                Hrows Hother) as (Hq1 & _ & Hother1).
  pose proof (stream_loop_todo analyzer project_dir rows st) as Hsub.
  cbv zeta in *.
  destruct (stream_loop py_float get_matcher analyzer project_dir rows st) as [st1 [|e]];
    cbn [fst snd] in *; [|exact Hq1].
  pose proof (commit_open_quiet py_float c analyzer project_dir st1 Hother1) as Hq2.
  cbv zeta in Hq2.
  destruct (commit_open py_float analyzer project_dir st1) as [[conn2 log2] [|e]];
    cbn [fst snd] in *; [|exact (quiet_trans _ _ _ _ Hq1 Hq2)].
  assert (Hnot : c ∉ elements (todo_countries st1)).
  { rewrite elem_of_elements. intros Hin. apply Htodo. now apply Hsub. }
  pose proof (todo_loop_quiet py_float get_matcher c analyzer project_dir _ conn2 log2 Hnot)
    as Hq3.
  cbv zeta in Hq3.
  exact (quiet_trans _ _ _ _ Hq1 (quiet_trans _ _ _ _ Hq2 Hq3)).
Qed.

(** With the collector of [c] open, no source row of [c] left and [c] out
    of the stale countries, a pass that returns commits that collector
    exactly once and leaves [c] alone afterwards. *)
Lemma pass_from_commits_once c analyzer project_dir post col todo conn log conn' log' :
  country col = c ->
  c ∉ map (fun r => r.1.1.1) post ->
  c ∉ todo ->
  pass_from py_float get_matcher analyzer project_dir post
            (mkDriver (Some col) todo conn log) = (conn', log', Normal) ->
  exists self' mid,
    commit py_float col conn analyzer project_dir log = (self', mid.1, mid.2, Normal) /\
    quiet c mid (conn', log').
Proof.
  intros Hco Hpost Htodo Hrun.
  destruct post as [|[[[cc pc] x] y] post].
  - unfold pass_from in Hrun. cbn [stream_loop] in Hrun.
    unfold commit_open in Hrun. cbn [collector Postcodes.conn Postcodes.log todo_countries] in Hrun.
    destruct (commit py_float col conn analyzer project_dir log)
      as [[[self' conn1] log1] [|e]]; [|discriminate Hrun].
    exists self', (conn1, log1). split; [reflexivity|].
    assert (Hnot : c ∉ elements todo) by now rewrite elem_of_elements.
    pose proof (todo_loop_quiet py_float get_matcher c analyzer project_dir _ conn1 log1 Hnot)
      as Hq.
    cbv zeta in Hq. rewrite Hrun in Hq. exact Hq.
  - cbn [map fst] in Hpost. apply not_elem_of_cons in Hpost as [Hcc Hpost].
    unfold pass_from in Hrun. cbn [stream_loop collector] in Hrun.
    rewrite Hco in Hrun.
    assert (E : String.eqb cc c = false) by (apply String.eqb_neq; congruence).
    rewrite E in Hrun. cbn [negb] in Hrun.
    unfold commit_open at 1 in Hrun.
    cbn [collector Postcodes.conn Postcodes.log todo_countries] in Hrun.
    destruct (commit py_float col conn analyzer project_dir log)
      as [[[self' conn1] log1] [|e]].
    + exists self', (conn1, log1). split; [reflexivity|].
      set (st2 := mkDriver (Some (add (new cc (get_matcher cc)) pc x y))
                           (todo ∖ {[cc]}) conn1 log1) in Hrun.
      assert (Hother : other_country c (collector st2)).
      { intros col' [= <-]. rewrite add_country. cbn. congruence. }
      assert (Htodo2 : c ∉ todo_countries st2) by (cbn; intros [H _]%elem_of_difference; exact (Htodo H)).
      pose proof (pass_from_quiet c analyzer project_dir post st2 Hpost Hother Htodo2) as Hq.
      cbv zeta in Hq. unfold pass_from in Hq. rewrite Hrun in Hq. exact Hq.
    + discriminate Hrun.
Qed.

Lemma todo_loop_once c analyzer project_dir todo : forall conn log conn' log',
  NoDup todo -> c ∈ todo ->
  todo_loop py_float get_matcher analyzer project_dir todo conn log = (conn', log', Normal) ->
  exists self' mid1 mid2,
    quiet c (conn, log) mid1 /\
    commit py_float (new c (get_matcher c)) mid1.1 analyzer project_dir mid1.2 =
      (self', mid2.1, mid2.2, Normal) /\
    quiet c mid2 (conn', log').
Proof.
  induction todo as [|c0 todo IH]; intros conn log conn' log' Hnd Hin Hrun.
  - now apply elem_of_nil in Hin.
  - apply NoDup_cons in Hnd as [Hc0 Hnd]. cbn [todo_loop] in Hrun.
    destruct (decide (c0 = c)) as [->|Hne].
    + destruct (commit py_float (new c (get_matcher c)) conn analyzer project_dir log)
        as [[[self' conn1] log1] [|e]] eqn:Hc; [|discriminate Hrun].
      exists self', (conn, log), (conn1, log1). split; [apply quiet_refl|].
      split; [exact Hc|].
      pose proof (todo_loop_quiet py_float get_matcher c analyzer project_dir todo conn1 log1 Hc0)
        as Hq.
      cbv zeta in Hq. now rewrite Hrun in Hq.
    + apply elem_of_cons in Hin as [Heq|Hin]; [congruence|].
      pose proof (commit_quiet py_float c (new c0 (get_matcher c0)) conn analyzer project_dir log)
        as Hq.
      cbv zeta in Hq. specialize (Hq Hne).
      destruct (commit py_float (new c0 (get_matcher c0)) conn analyzer project_dir log)
        as [[[self0 conn1] log1] [|e]]; [|discriminate Hrun].
      cbn [fst snd] in Hq.
      destruct (IH conn1 log1 conn' log' Hnd Hin Hrun) as (self' & mid1 & mid2 & H1 & H2 & H3).
      exists self', mid1, mid2. split; [exact (quiet_trans _ _ _ _ Hq H1)|]. now split.
Qed.

Lemma update_postcodes_pass_from conn0 project_dir tokenizer placex log0 :
  update_postcodes py_float get_matcher conn0 project_dir tokenizer placex log0 =
  pass_from py_float get_matcher (name_analyzer tokenizer) project_dir placex
            (mkDriver None (stored_countries (location_postcode conn0)) conn0 log0).
Proof. reflexivity. Qed.

Lemma quiet_filter c x y :
  quiet c x y ->
  List.filter (of_country c) (location_postcode y.1) =
  List.filter (of_country c) (location_postcode x.1).
Proof. now intros (H & _). Qed.

(** X12.  One pass over source rows in which the rows of country [c] are
    adjacent, as the query's [ORDER BY cc] yields them: when the pass
    returns, the table stores for [c] exactly the postcodes collected
    from those rows and the external file of [c], each once and at a
    point that passes the test of [_compute_changes]; what the pass does
    for other countries before and after does not disturb it. *)
Theorem streamed_country_stored conn0 project_dir tokenizer log0 conn' log'
    c pc x y pre crows post :
  update_postcodes py_float get_matcher conn0 project_dir tokenizer
                   (pre ++ (c, pc, x, y) :: crows ++ post) log0 = (conn', log', Normal) ->
  (forall r, r ∈ crows -> r.1.1.1 = c) ->
  c ∉ map (fun r => r.1.1.1) pre ->
  c ∉ map (fun r => r.1.1.1) post ->
  unique_postcodes c (location_postcode conn0) ->
  stores c
    (collected (merge_external py_float (fed get_matcher c ((c, pc, x, y) :: crows))
                               (name_analyzer tokenizer) project_dir []).1.1)
    (location_postcode conn').
Proof.
  intros Hrun Hcrows Hpre Hpost Hnd.
  rewrite update_postcodes_pass_from in Hrun. unfold pass_from in Hrun.
  set (analyzer := name_analyzer tokenizer) in *.
  set (st0 := mkDriver None (stored_countries (location_postcode conn0)) conn0 log0) in *.
  rewrite stream_loop_app in Hrun.
  assert (Hother0 : other_country c (collector st0)) by (intros col [=]).
  pose proof (stream_loop_quiet py_float get_matcher c analyzer project_dir pre st0
                Hpre Hother0) as (Hq1 & _ & Hother1).
  cbv zeta in Hq1, Hother1.
  destruct (stream_loop py_float get_matcher analyzer project_dir pre st0) as [st1 [|e]];
    cbn [fst snd] in *; [|discriminate Hrun].
  change (conn st0, log st0) with (conn0, log0) in Hq1.
  cbn [stream_loop] in Hrun.
  assert (Hswitch : match collector st1 with
                    | Some c1 => negb (String.eqb c (country c1)) | None => true end = true).
  { destruct (collector st1) as [c1|] eqn:E; [|reflexivity].
    apply negb_true_iff, String.eqb_neq. intros Heq. now apply (Hother1 c1 eq_refl). }
  rewrite Hswitch in Hrun.
  pose proof (commit_open_quiet py_float c analyzer project_dir st1 Hother1) as Hq2.
  cbv zeta in Hq2.
  destruct (commit_open py_float analyzer project_dir st1) as [[conn2 log2] [|e]];
    cbn [fst snd] in *; [|discriminate Hrun].
  rewrite stream_loop_app in Hrun.
  rewrite stream_loop_same in Hrun
    by (intros r Hr; rewrite add_country; cbn; now apply Hcrows).
  change (add_all add (map point crows) (add (new c (get_matcher c)) pc x y))
    with (fed get_matcher c ((c, pc, x, y) :: crows)) in Hrun.
  set (col := fed get_matcher c ((c, pc, x, y) :: crows)) in *.
  assert (Hco : country col = c) by (unfold col, fed; now rewrite add_all_country).
  assert (Htodo : c ∉ todo_countries st1 ∖ {[c]}).
  { intros [_ H]%elem_of_difference. apply H. now apply elem_of_singleton. }
  destruct (pass_from_commits_once c analyzer project_dir post col _ conn2 log2 conn' log'
              Hco Hpost Htodo Hrun) as (self' & [conn3 log3] & Hc & Hq3).
  cbn [fst snd] in Hc.
  pose proof (quiet_trans _ _ _ _ Hq1 Hq2) as Hq12.
  assert (Hnd2 : unique_postcodes (country col) (location_postcode conn2)).
  { rewrite Hco. exact (unique_filter c _ _ (quiet_filter c _ _ Hq12) Hnd). }
  pose proof (commit_stores col conn2 analyzer project_dir log2 self' conn3 log3 Hnd2 Hc) as Hs.
  rewrite Hco in Hs.
  exact (stores_filter c _ _ _ (quiet_filter c _ _ Hq3) Hs).
Qed.

(** X13.  A country with stored postcodes and no source row is committed
    once, from an empty collector: when the pass returns, its stored
    postcodes are distinct and are exactly the keys of the mapping that
    the external merge builds from the empty collector (so none without
    project directory or file, and none for a row of the file that the
    validation skips), and every stored point passes the test of
    [_compute_changes] against the centroid of its key.  The stored point
    need not be the point of the file: a record that the test, which has
    no absolute value, finds not moved stays where it was. *)
Theorem stale_country_stored conn0 project_dir tokenizer placex log0 conn' log' c :
  update_postcodes py_float get_matcher conn0 project_dir tokenizer placex log0 =
    (conn', log', Normal) ->
  c ∈ stored_countries (location_postcode conn0) ->
  c ∉ map (fun r => r.1.1.1) placex ->
  unique_postcodes c (location_postcode conn0) ->
  stores c
    (collected (merge_external py_float (new c (get_matcher c))
                               (name_analyzer tokenizer) project_dir []).1.1)
    (location_postcode conn').
Proof.
  intros Hrun Hstored Hplacex Hnd.
  rewrite update_postcodes_pass_from in Hrun. unfold pass_from in Hrun.
  set (analyzer := name_analyzer tokenizer) in *.
  set (st0 := mkDriver None (stored_countries (location_postcode conn0)) conn0 log0) in *.
  assert (Hother0 : other_country c (collector st0)) by (intros col [=]).
  pose proof (stream_loop_quiet py_float get_matcher c analyzer project_dir placex st0
                Hplacex Hother0) as (Hq1 & Htodo & Hother1).
  cbv zeta in Hq1, Htodo, Hother1.
  destruct (stream_loop py_float get_matcher analyzer project_dir placex st0) as [st1 [|e]];
    cbn [fst snd] in *; [|discriminate Hrun].
  change (conn st0, log st0) with (conn0, log0) in Hq1.
  specialize (Htodo Hstored).
  pose proof (commit_open_quiet py_float c analyzer project_dir st1 Hother1) as Hq2.
  cbv zeta in Hq2.
  destruct (commit_open py_float analyzer project_dir st1) as [[conn2 log2] [|e]];
    cbn [fst snd] in *; [|discriminate Hrun].
  assert (Hin : c ∈ elements (todo_countries st1)) by now rewrite elem_of_elements.
  destruct (todo_loop_once c analyzer project_dir _ conn2 log2 conn' log'
              (NoDup_elements _) Hin Hrun)
    as (self' & [conn3 log3] & [conn4 log4] & Hq3 & Hc & Hq4).
  cbn [fst snd] in Hc.
  pose proof (quiet_trans _ _ _ _ Hq1 (quiet_trans _ _ _ _ Hq2 Hq3)) as Hq.
  assert (Hnd3 : unique_postcodes (country (new c (get_matcher c))) (location_postcode conn3))
    by exact (unique_filter c _ _ (quiet_filter c _ _ Hq) Hnd).
  pose proof (commit_stores _ conn3 analyzer project_dir log3 self' conn4 log4 Hnd3 Hc) as Hs.
  exact (stores_filter c _ _ _ (quiet_filter c _ _ Hq4) Hs).
Qed.

(** X14.  Every statement that [update_postcodes] sends is for a country
    that has a source row or had a stored postcode when the pass began,
    however the pass ends. *)
Theorem statements_only_for_known_countries conn0 project_dir tokenizer placex log0 s :
  let r := update_postcodes py_float get_matcher conn0 project_dir tokenizer placex log0 in
  s ∈ executed r.1.1 ->
  s ∈ executed conn0 \/
  statement_country s ∈ map (fun r => r.1.1.1) placex \/
  statement_country s ∈ stored_countries (location_postcode conn0).
Proof.
  intros r Hs. set (c := statement_country s).
  destruct (decide (c ∈ map (fun r => r.1.1.1) placex)) as [|Hplacex]; [now right; left|].
  destruct (decide (c ∈ stored_countries (location_postcode conn0))) as [|Hstored];
    [now right; right|].
  left. unfold r in Hs. rewrite update_postcodes_pass_from in Hs.
  set (st0 := mkDriver None (stored_countries (location_postcode conn0)) conn0 log0) in *.
  assert (Hother0 : other_country c (collector st0)) by (intros col [=]).
  pose proof (pass_from_quiet c (name_analyzer tokenizer) project_dir placex st0
                Hplacex Hother0 Hstored) as (_ & (stmts & Hex & Hstmts) & _).
  cbn [fst snd] in Hex. rewrite Hex in Hs.
  apply elem_of_app in Hs as [Hs|Hs]; [exact Hs|].
  now destruct (Hstmts s Hs).
Qed.
End DriverMore.

(** ** The properties above on the sample data *)

Section MoreSamples.
Import Postcodes Version Fixtures.

Lemma parse_version_negative_level_witness :
  let v := mkVersion 5 1 (-1) (Some 0%Z) in
  __str__ v = "5.1.-1-0" /\ parse_version (__str__ v) = Raise ValueError.
Proof.
  split; [reflexivity|].
  apply (parse_version_negative_level (mkVersion 5 1 (-1) (Some 0%Z)) 0%Z);
    [reflexivity | left; simpl; lia].
Defined.

Lemma parse_version_ignores_tail_witness :
  parse_version "5.1.0-0.dev1" = Ok (mkVersion 5 1 0 (Some 0%Z)) /\
  parse_version (String.append "5.1.0-0" (String "." "dev1")) = parse_version "5.1.0-0".
Proof.
  split; [reflexivity|].
  apply (parse_version_ignores_tail "5.1.0-0" "dev1"). simpl. lia.
Defined.

Lemma str_injective_witness :
  let v := mkVersion 5 1 0 (Some 0%Z) in
  let v' := mkVersion 5 (0 + 1) 0 (Some 0%Z) in
  __str__ v = __str__ v' /\ v = v'.
Proof.
  split; [reflexivity|].
  apply (str_injective (mkVersion 5 1 0 (Some 0%Z)) (mkVersion 5 (0 + 1) 0 (Some 0%Z))
           0%Z 0%Z); simpl; [reflexivity | lia | lia | reflexivity | lia | lia | reflexivity].
Defined.

Lemma add_all_keys_witness :
  let self := new "de" (Some five_matcher) in
  cache_coherent self /\
  (is_Some (collected (add_all add de_rows self) !! "10117") <->
   is_Some (collected self !! "10117") \/
   ("10117" <> "" /\
    exists p x y, (p, x, y) ∈ de_rows /\ match_normalize five_matcher p = Some "10117")).
Proof.
  split; [exact I|].
  apply (add_all_keys five_matcher de_rows (new "de" (Some five_matcher)) "10117");
    [reflexivity | exact I].
Defined.

Lemma external_adds_single_points_witness :
  collected de_collector !! "22222" = None /\
  exists x y, iadd init (10.0, 50.0)%Q = iadd init (x, y) /\
    (- 180 < x)%Q /\ (x < 180)%Q /\ (- 90 < y)%Q /\ (y < 90)%Q.
Proof.
  split; [reflexivity|].
  apply (external_adds_single_points decimal_float de_collector plain_analyzer
           (Some de_dir) [] "22222" (iadd init (10.0, 50.0)%Q)); reflexivity.
Defined.


Lemma commit_stores_collected_witness :
  let self := add_all add de_rows (new "de" (Some five_matcher)) in
  let r := commit decimal_float self sample_conn plain_analyzer (Some de_dir) [] in
  unique_postcodes "de" sample_table /\
  stored_postcodes "de" (location_postcode r.1.1.2) = ["10115"; "10117"; "22222"] /\
  stores "de"
    (collected (merge_external decimal_float self plain_analyzer (Some de_dir) []).1.1)
    (location_postcode r.1.1.2).
Proof.
  intros self r.
  assert (Hu : unique_postcodes "de" sample_table)
    by (apply (bool_decide_unpack _); vm_compute; exact I).
  split; [exact Hu|]. split; [vm_compute; reflexivity|].
  apply (commit_stores_collected decimal_float self sample_conn plain_analyzer (Some de_dir) []
           r.1.1.1 r.1.1.2 r.1.2); [exact Hu | vm_compute; reflexivity].
Defined.

Lemma commit_rows_kinds_witness :
  let self := add_all add de_rows (new "de" (Some five_matcher)) in
  let r := commit decimal_float self sample_conn plain_analyzer (Some de_dir) [] in
  let row := mkRow 1 "de" "22222" ((0 + 10.0) / 1, (0 + 50.0) / 1)%Q in
  row ∈ location_postcode r.1.1.2 /\
  row_after (collected (merge_external decimal_float self plain_analyzer (Some de_dir) []).1.1)
            "de" sample_table row.
Proof.
  intros self r row.
  assert (Hu : unique_postcodes "de" sample_table)
    by (apply (bool_decide_unpack _); vm_compute; exact I).
  assert (Hrow : row ∈ location_postcode r.1.1.2)
    by (apply (list_elem_of_lookup_2 _ 4); vm_compute; reflexivity).
  split; [exact Hrow|].
  apply (commit_rows_kinds decimal_float self sample_conn plain_analyzer (Some de_dir) []
           r.1.1.1 r.1.1.2 r.1.2 row);
    [exact Hu | vm_compute; reflexivity | exact Hrow | reflexivity].
Defined.

Lemma streamed_country_stored_witness :
  let r := update_postcodes decimal_float all_five sample_conn (Some de_dir)
             plain_tokenizer mixed_placex [] in
  r.2 = Normal /\
  stored_postcodes "de" (location_postcode r.1.1) = ["10115"; "10117"; "22222"] /\
  stores "de"
    (collected (merge_external decimal_float
                  (fed all_five "de"
                     [("de", "10115", 13, 52); ("de", "10115", 13.2, 52.2);
                      ("de", "10117", 13.4, 52.5)]%Q)
                  plain_analyzer (Some de_dir) []).1.1)
    (location_postcode r.1.1).
Proof.
  intros r. split; [reflexivity|]. split; [vm_compute; reflexivity|].
  apply (streamed_country_stored decimal_float all_five sample_conn (Some de_dir)
           plain_tokenizer [] r.1.1 r.1.2 "de" "10115" 13 52
           [("at", "10100", 16.4, 48.2)%Q]
           [("de", "10115", 13.2, 52.2); ("de", "10117", 13.4, 52.5)]%Q
           [("fr", "75001", 2.3, 48.9)%Q]).
  - vm_compute. reflexivity.
  - apply (proj1 (Forall_forall _ _)). repeat constructor.
  - apply (bool_decide_unpack _). vm_compute. exact I.
  - apply (bool_decide_unpack _). vm_compute. exact I.
  - apply (bool_decide_unpack _). vm_compute. exact I.
Defined.

Lemma stale_country_stored_witness :
  let r := update_postcodes decimal_float all_five sample_conn (Some it_dir)
             plain_tokenizer sample_placex [] in
  r.2 = Normal /\
  select_postcodes "it" sample_table =
    [("00100", 12.5, 41.9); ("00200", 12.6, 41.8)]%Q /\
  select_postcodes "it" (location_postcode r.1.1) =
    [("00100", 12.5, 41.9); ("00300", (0 + 12.4) / 1, (0 + 41.7) / 1)]%Q /\
  stores "it"
    (collected (merge_external decimal_float (new "it" (all_five "it")) plain_analyzer
                  (Some it_dir) []).1.1)
    (location_postcode r.1.1).
Proof.
  intros r. split; [reflexivity|]. split; [reflexivity|].
  split; [vm_compute; reflexivity|].
  apply (stale_country_stored decimal_float all_five sample_conn (Some it_dir)
           plain_tokenizer sample_placex [] r.1.1 r.1.2 "it").
  - vm_compute. reflexivity.
  - apply elem_of_list_to_set. apply (bool_decide_unpack _). vm_compute. exact I.
  - apply (bool_decide_unpack _). vm_compute. exact I.
  - apply (bool_decide_unpack _). vm_compute. exact I.
Defined.

Lemma statements_only_for_known_countries_witness :
  let r := update_postcodes decimal_float all_five sample_conn (Some de_dir)
             plain_tokenizer sample_placex [] in
  let s := Delete "it" ["00100"; "00200"] in
  s ∈ executed r.1.1 /\
  (s ∈ executed sample_conn \/
   statement_country s ∈ map (fun r => r.1.1.1) sample_placex \/
   statement_country s ∈ stored_countries (location_postcode sample_conn)).
Proof.
  intros r s.
  assert (Hs : s ∈ executed r.1.1)
    by (apply (list_elem_of_lookup_2 _ 3); vm_compute; reflexivity).
  split; [exact Hs|].
  apply (statements_only_for_known_countries decimal_float all_five sample_conn (Some de_dir)
           plain_tokenizer sample_placex [] s). exact Hs.
Defined.


Lemma update_postcodes_unique_witness :
  unique_table sample_table /\
  unique_table (location_postcode
    (update_postcodes decimal_float all_five sample_conn (Some de_dir) plain_tokenizer
                      mixed_placex []).1.1).
Proof.
  assert (Hu : unique_table sample_table).
  { apply unique_pairs_table. apply (bool_decide_unpack _). vm_compute. exact I. }
  split; [exact Hu|].
  apply (update_postcodes_unique decimal_float all_five sample_conn (Some de_dir)
           plain_tokenizer mixed_placex []). exact Hu.
Defined.

End MoreSamples.
